(** * Refactorizor: a file-mutation-and-commit pipeline

    Shallow embedding of [refactorizor.py]: the abstract base class
    [Refactorizor] with its method [execute], and the concrete class
    [PythonJavaScriptRefactorizor] with [apply_changes],
    [update_codebase_md] and [commit_changes].

    - A [Change] is a Python dict with string keys and string values; a
      missing key raises [KeyError], as [change["..."]] does.
    - The working tree is a finite map from paths to the contents of
      regular text files (a path stands for one file; directories and
      permissions are not modelled).  The contents of a file are the
      characters it decodes to in the default encoding, carriage returns
      included (a file that does not decode is not modelled).  Files are
      opened in text mode, as the source opens them: reading translates
      every line end to the newline character ([universal_newlines]);
      writing stores the text as it is (the platform's line separator is
      the newline character, as on POSIX).
    - The repository found at the current directory (if any) has a
      path-keyed index and a list of commits; the target files of a
      change set lie inside its working tree.
    - Python statements are computations in a state-and-exception monad
      [M]: an exception keeps the state reached so far (nothing is rolled
      back), exactly as an uncaught Python exception leaves the disk.
    - [re.sub] belongs to Python's standard library.  The pipeline is
      defined over an arbitrary [re_sub]; module [Re] models [re.sub] on
      a fragment of the pattern language (literal characters, escapes and
      [.]), following CPython's [pattern_subx] loop. *)

From Stdlib Require Import Ascii String.
From stdpp Require Import base option list strings gmap.

Local Open Scope stdpp_scope.

(** ** Python values, exceptions and the world *)

(** The newline character, written [\n] in the Python source. *)
Definition LF : ascii := "010"%char.
Definition nl : string := String LF "".

(** The carriage return, written [\r]. *)
Definition CR : ascii := "013"%char.

Definition CommitId := nat.

(** What a Python call hands back to its caller. *)
Inductive PyValue :=
| PyNone
| PyCommit (id : CommitId).

Inductive PyExc :=
| ValueError (msg : string)
| KeyError (key : string)
| ReError
| FileNotFoundError (path : string)
| InvalidGitRepositoryError.

Record Commit := mkCommit {
  commit_message : string;
  commit_tree : gmap string string
}.

Record Repo := mkRepo {
  index : gmap string string;
  commits : list Commit
}.

Record World := mkWorld {
  fs : gmap string string;
  repo : option Repo
}.

Definition set_fs (f : gmap string string → gmap string string) (w : World) : World :=
  mkWorld (f (fs w)) (repo w).

(** ** The monad of Python statements *)

Definition M (A : Type) : Type := World → (PyExc + A) * World.

Global Instance M_ret : MRet M := λ A (a : A) w, (inr a, w).

Definition raise {A} (e : PyExc) : M A := λ w, (inl e, w).

(** An exception skips the continuation and keeps the world it was raised
    in. *)
Global Instance M_bind : MBind M := λ A B (k : A → M B) (m : M A) w,
  match m w with
  | (inr a, w') => k a w'
  | (inl e, w') => (inl e, w')
  end.

Definition lift {A} (r : PyExc + A) : M A :=
  match r with
  | inr a => mret a
  | inl e => raise e
  end.

(** [for x in l: f(x)] *)
Fixpoint for_each {A B} (f : A → M B) (l : list A) : M unit :=
  match l with
  | [] => mret tt
  | x :: l' => f x;; for_each f l'
  end.

(** [[f(x) for x in l]] *)
Fixpoint comprehension {A B} (f : A → M B) (l : list A) : M (list B) :=
  match l with
  | [] => mret []
  | x :: l' => y ← f x; ys ← comprehension f l'; mret (y :: ys)
  end.

(** ** Dicts and files *)

(** [d[key]] *)
Definition getitem (d : gmap string string) (key : string) : M string :=
  match d !! key with
  | Some v => mret v
  | None => raise (KeyError key)
  end.

(** [os.path.exists(path)] *)
Definition path_exists (path : string) : M bool :=
  λ w, (inr (bool_decide (is_Some (fs w !! path))), w).

(** [open(path, "a")]: the file is created empty when it is absent. *)
Definition open_append (path : string) : M unit :=
  λ w, (inr tt,
        match fs w !! path with
        | Some _ => w
        | None => set_fs <[path := ""]> w
        end).

(** [f.write(s)] on a handle opened in append mode: the text goes to the
    end of the file. *)
Definition write_append (path s : string) : M unit :=
  λ w, (inr tt, set_fs <[path := default "" (fs w !! path) +:+ s]> w).

(** What a text-mode handle makes of the characters of a file: with the
    default [newline=None], a carriage return followed by a newline is
    read as one newline, and any other carriage return as a newline. *)
Fixpoint universal_newlines (s : string) : string :=
  match s with
  | "" => ""
  | String c rest =>
      if bool_decide (c = CR) then
        match rest with
        | String c' rest' =>
            if bool_decide (c' = LF) then String LF (universal_newlines rest')
            else String LF (universal_newlines rest)
        | "" => String LF ""
        end
      else String c (universal_newlines rest)
  end.

(** No carriage return among the characters of [s]. *)
Definition no_cr (s : list ascii) : bool :=
  forallb (λ c, negb (bool_decide (c = CR))) s.

(** [open(path, "r")] followed by [f.read()] *)
Definition read_file (path : string) : M string :=
  λ w, match fs w !! path with
       | Some s => (inr (universal_newlines s), w)
       | None => (inl (FileNotFoundError path), w)
       end.

(** [open(path, "w")] followed by [f.write(s)]: the file is truncated and
    holds [s] alone. *)
Definition write_file (path s : string) : M unit :=
  λ w, (inr tt, set_fs <[path := s]> w).

(** ** The version-control collaborator (GitPython) *)

(** [git.Repo(os.getcwd())] *)
Definition git_Repo : M Repo :=
  λ w, match repo w with
       | Some r => (inr r, w)
       | None => (inl InvalidGitRepositoryError, w)
       end.

(** Contents of the working-tree files named by [paths], or the first
    path that is missing. *)
Fixpoint read_paths (files : gmap string string) (paths : list string)
  : string + list (string * string) :=
  match paths with
  | [] => inr []
  | p :: paths' =>
      match files !! p with
      | None => inl p
      | Some s =>
          match read_paths files paths' with
          | inl q => inl q
          | inr entries => inr ((p, s) :: entries)
          end
      end
  end.

(** The index is keyed by path: staging a path stores the current
    contents of the file under that key. *)
Definition stage (idx : gmap string string) (entries : list (string * string))
  : gmap string string :=
  foldl (λ i e, <[e.1 := e.2]> i) idx entries.

(** [repo.index.add(paths)] *)
Definition index_add (paths : list string) : M unit :=
  λ w, match repo w with
       | None => (inl InvalidGitRepositoryError, w)
       | Some r =>
           match read_paths (fs w) paths with
           | inl p => (inl (FileNotFoundError p), w)
           | inr entries =>
               (inr tt, mkWorld (fs w) (Some (mkRepo (stage (index r) entries) (commits r))))
           end
       end.

(** [repo.index.commit(message)]: one commit is appended to the history;
    its identifier is its position there. *)
Definition index_commit (message : string) : M CommitId :=
  λ w, match repo w with
       | None => (inl InvalidGitRepositoryError, w)
       | Some r =>
           (inr (length (commits r)),
            mkWorld (fs w) (Some (mkRepo (index r) (commits r ++ [mkCommit message (index r)]))))
       end.

(** ** [re.sub] on a fragment of Python's pattern language

    A pattern of the fragment is a sequence of one-character items, as
    [sre_parse] produces them for a pattern without sets, groups, repeats,
    anchors or alternation: an ordinary character or an escaped one is a
    LITERAL, [.] is ANY (every character but the newline).  Everything
    else lies outside the fragment, and the functions below answer [None]
    there. *)
Module Re.

Inductive Atom :=
| Literal (c : ascii)
| Any.

Definition Pattern := list Atom.

Definition is_digit (c : ascii) : bool :=
  (48 <=? nat_of_ascii c) && (nat_of_ascii c <=? 57).

Definition is_ascii_letter (c : ascii) : bool :=
  (65 <=? nat_of_ascii c) && (nat_of_ascii c <=? 90)
  || (97 <=? nat_of_ascii c) && (nat_of_ascii c <=? 122).

(** SPECIAL_CHARS of [sre_parse] together with the two characters that
    close a group or separate alternatives. *)
Definition is_special (c : ascii) : bool :=
  bool_decide (c ∈ list_ascii_of_string ".\[{()*+?^$|").

(** A backslash escape inside a pattern: the control-character escapes,
    and any character that is neither a letter nor a digit standing for
    itself. *)
Definition pattern_escape (c : ascii) : option ascii :=
  if bool_decide (c = "a"%char) then Some "007"%char
  else if bool_decide (c = "f"%char) then Some "012"%char
  else if bool_decide (c = "n"%char) then Some "010"%char
  else if bool_decide (c = "r"%char) then Some "013"%char
  else if bool_decide (c = "t"%char) then Some "009"%char
  else if bool_decide (c = "v"%char) then Some "011"%char
  else if is_ascii_letter c || is_digit c then None
  else Some c.

(** After an opening brace: [true] when the brace cannot start a repeat
    and is therefore a literal. *)
Definition brace_is_literal (next : list ascii) : bool :=
  match next with
  | [] => true
  | c :: _ => negb (is_digit c || bool_decide (c = ","%char))
  end.

Fixpoint parse (s : list ascii) : option Pattern :=
  match s with
  | [] => Some []
  | c :: s' =>
      if bool_decide (c = "\"%char) then
        match s' with
        | [] => None
        | e :: s'' =>
            match pattern_escape e, parse s'' with
            | Some l, Some p => Some (Literal l :: p)
            | _, _ => None
            end
        end
      else if bool_decide (c = "."%char) then
        cons Any <$> parse s'
      else if bool_decide (c = "{"%char) then
        if brace_is_literal s' then cons (Literal c) <$> parse s' else None
      else if is_special c then None
      else cons (Literal c) <$> parse s'
  end.

(** [re.compile(pattern)] *)
Definition compile (pattern : string) : option Pattern :=
  parse (list_ascii_of_string pattern).

(** A backslash escape inside a replacement template. *)
Definition template_escape (c : ascii) : option (list ascii) :=
  if bool_decide (c = "a"%char) then Some ["007"%char]
  else if bool_decide (c = "b"%char) then Some ["008"%char]
  else if bool_decide (c = "f"%char) then Some ["012"%char]
  else if bool_decide (c = "n"%char) then Some ["010"%char]
  else if bool_decide (c = "r"%char) then Some ["013"%char]
  else if bool_decide (c = "t"%char) then Some ["009"%char]
  else if bool_decide (c = "v"%char) then Some ["011"%char]
  else if bool_decide (c = "\"%char) then Some ["\"%char]
  else if is_ascii_letter c || is_digit c then None
  else Some ["\"%char; c].

(** [parse_template]: a pattern of the fragment has no group, so a
    template of the fragment refers to none and expands to one fixed
    text. *)
Fixpoint parse_template (s : list ascii) : option (list ascii) :=
  match s with
  | [] => Some []
  | c :: s' =>
      if bool_decide (c = "\"%char) then
        match s' with
        | [] => None
        | e :: s'' =>
            match template_escape e, parse_template s'' with
            | Some l, Some t => Some (l ++ t)
            | _, _ => None
            end
        end
      else cons c <$> parse_template s'
  end.

Definition compile_template (repl : string) : option (list ascii) :=
  parse_template (list_ascii_of_string repl).

Definition atom_matches (a : Atom) (c : ascii) : bool :=
  match a with
  | Literal l => bool_decide (l = c)
  | Any => negb (bool_decide (c = LF))
  end.

(** [sre_match] at the head of [s]: the matched text and what follows. *)
Fixpoint match_here (p : Pattern) (s : list ascii) : option (list ascii * list ascii) :=
  match p with
  | [] => Some ([], s)
  | a :: p' =>
      match s with
      | [] => None
      | c :: s' =>
          if atom_matches a c then
            match match_here p' s' with
            | Some (m, rest) => Some (c :: m, rest)
            | None => None
            end
          else None
      end
  end.

(** The attempt [sre_search] makes at the first position: with
    [must_advance] an empty match is refused there. *)
Definition here (p : Pattern) (must_advance : bool) (s : list ascii)
  : option (list ascii * list ascii) :=
  match match_here p s with
  | Some (m, rest) =>
      if must_advance && bool_decide (m = []) then None else Some (m, rest)
  | None => None
  end.

(** [sre_search]: the leftmost match in [s], as the text skipped before
    it, the matched text, and the rest.  With [must_advance] an empty
    match at the very start is refused. *)
Fixpoint search (p : Pattern) (must_advance : bool) (s : list ascii)
  : option (list ascii * list ascii * list ascii) :=
  match here p must_advance s with
  | Some (m, rest) => Some ([], m, rest)
  | None =>
      match s with
      | [] => None
      | c :: s' =>
          match search p false s' with
          | Some (pre, m, rest) => Some (c :: pre, m, rest)
          | None => None
          end
      end
  end.

(** The loop of [pattern_subx]: [n] substitutions have been made, [s]
    is the text from the end of the last match on. [count = 0] asks for
    every match. *)
Fixpoint subx (fuel : nat) (p : Pattern) (repl : list ascii) (count n : nat)
    (must_advance : bool) (s : list ascii) : list ascii :=
  match fuel with
  | 0 => s
  | S fuel' =>
      if negb (count =? 0) && (count <=? n) then s
      else
        match search p must_advance s with
        | None => s
        | Some (pre, m, rest) =>
            pre ++ repl ++ subx fuel' p repl count (S n) (bool_decide (m = [])) rest
        end
  end.

(** Two rounds of the loop consume at least one character. *)
Definition subx_fuel (s : list ascii) : nat := 2 * length s + 2.

(** [re.sub(pattern, repl, string, count)] *)
Definition sub (pattern repl text : string) (count : nat) : option string :=
  p ← compile pattern;
  t ← compile_template repl;
  let s := list_ascii_of_string text in
  Some (string_of_list_ascii (subx (subx_fuel s) p t count 0 false s)).

(** ** What "every occurrence is substituted" means *)

(** [m] is a text the pattern matches. *)
Definition matches (p : Pattern) (m : list ascii) : Prop :=
  Forall2 (λ a c, atom_matches a c = true) p m.

(** [s] splits into [pre ++ m ++ rest] with [m] an occurrence of the
    pattern; under [must_advance] the empty occurrence at the start
    does not count. *)
Definition occurrence (p : Pattern) (must_advance : bool)
    (s pre m rest : list ascii) : Prop :=
  s = pre ++ m ++ rest ∧ matches p m ∧ ¬ (must_advance = true ∧ pre = [] ∧ m = []).

Definition leftmost (p : Pattern) (must_advance : bool)
    (s pre m rest : list ascii) : Prop :=
  occurrence p must_advance s pre m rest
  ∧ ∀ pre' m' rest', occurrence p must_advance s pre' m' rest' → length pre ≤ length pre'.

(** Scanning from the left, each leftmost occurrence is replaced by
    [repl] and the scan resumes behind it, until no occurrence is
    left. *)
Inductive SubstAll (p : Pattern) (repl : list ascii)
  : bool → list ascii → list ascii → Prop :=
| SubstAll_done adv s :
    (∀ pre m rest, ¬ occurrence p adv s pre m rest) →
    SubstAll p repl adv s s
| SubstAll_step adv s pre m rest out :
    leftmost p adv s pre m rest →
    SubstAll p repl (bool_decide (m = [])) rest out →
    SubstAll p repl adv s (pre ++ repl ++ out).

(** The text that holds no occurrence of the pattern. *)
Definition free_of (p : Pattern) (s : list ascii) : Prop :=
  ∀ pre m rest, ¬ occurrence p false s pre m rest.

(** No item of the pattern accepts a character of [t]. *)
Definition unmatched_by (p : Pattern) (t : list ascii) : Prop :=
  ∀ a c, a ∈ p → c ∈ t → atom_matches a c = false.

(** The pieces of text joined by [sep], as [sep.join(pieces)]. *)
Fixpoint intercalate (sep : list ascii) (pieces : list (list ascii)) : list ascii :=
  match pieces with
  | [] => []
  | g :: gs =>
      match gs with
      | [] => g
      | _ :: _ => g ++ sep ++ intercalate sep gs
      end
  end.

(** The replacement [t] closes off what it is put into: the last item of
    the pattern accepts no character of [t], and the last character of
    [t] is accepted by no item of the pattern. *)
Definition seals (p : Pattern) (t : list ascii) : bool :=
  match last p, last t with
  | Some a, Some c =>
      forallb (λ c', negb (atom_matches a c')) t
      && forallb (λ a', negb (atom_matches a' c)) p
  | _, _ => false
  end.

End Re.

(** The fragment as a total engine: a pattern or template outside it is
    answered with [re.error].  Used to run the pipeline on concrete
    inputs. *)
Definition re_sub_fragment (pattern repl text : string) : PyExc + string :=
  match Re.sub pattern repl text 0 with
  | Some out => inr out
  | None => inl ReError
  end.

(** An engine agrees with the fragment when it returns what [Re.sub]
    computes wherever [Re.sub] is defined. *)
Definition agrees_with_fragment (re_sub : string → string → string → PyExc + string) : Prop :=
  ∀ pattern repl text out,
    Re.sub pattern repl text 0 = Some out → re_sub pattern repl text = inr out.

(** ** The pipeline *)

(** The three error kinds of the apply phase are all [ValueError]s in the
    source and differ by their message. *)
Definition FileNotFound (target_file : string) : PyExc :=
  ValueError ("File " +:+ target_file +:+ " not found").

Definition PatternNotMatched (search_pattern target_file : string) : PyExc :=
  ValueError ("Search pattern '" +:+ search_pattern +:+ "' not found in " +:+ target_file).

Definition UnknownChangeType (change_type : string) : PyExc :=
  ValueError ("Unknown change_type: " +:+ change_type).

Definition codebase_md_path : string := "CODEBASE.md".

Definition recent_changes_header : string :=
  nl +:+ nl +:+ "## Recent Changes" +:+ nl +:+ nl.

Definition commit_preamble : string :=
  "Refactorizor script applied with the following changes:".

(** The text the spec expects below the changelog header: one bullet line
    per description. *)
Definition bullet_lines (descriptions : list string) : string :=
  foldr (λ d rest, ("- " +:+ d +:+ nl) +:+ rest) "" descriptions.

(** The text the spec expects below the preamble of the commit message:
    one line per description. *)
Definition description_lines (descriptions : list string) : string :=
  foldr (λ d rest, nl +:+ d +:+ rest) "" descriptions.

(** Reading a key of every dict of a list. *)
Definition has_values (key : string) (dicts : list (gmap string string))
    (values : list string) : Prop :=
  Forall2 (λ d v, d !! key = Some v) dicts values.

(** The index entries of [paths], each with the contents its file has in
    the working tree. *)
Definition working_tree_entries (files : gmap string string) (paths : list string)
  : list (string * string) :=
  (λ p, (p, default "" (files !! p))) <$> paths.

(** The abstract base class: an object holds its list of changes and
    supplies the three steps; [execute] is written once over them. *)
Module Refactorizor.

Record t := mk {
  changes : list (gmap string string);
  apply_changes : gmap string string → M PyValue;
  update_codebase_md : M PyValue;
  commit_changes : M PyValue
}.

(** [def execute(self)] *)
Definition execute (self : t) : M PyValue :=
  for_each (apply_changes self) (changes self);;
  update_codebase_md self;;
  commit_changes self;;
  mret PyNone.

End Refactorizor.

(** The concrete class. *)
Module PythonJavaScriptRefactorizor.

Section Engine.

(** [re.sub(pattern, repl, string)] of the Python installation at hand:
    a text, or an exception. *)
Variable re_sub : string → string → string → PyExc + string.

(** [def apply_changes(self, change)] *)
Definition apply_changes (change : gmap string string) : M PyValue :=
  change_type ← getitem change "change_type";
  target_file ← getitem change "target_file";
  found ← path_exists target_file;
  if negb found then raise (FileNotFound target_file)
  else if bool_decide (change_type = "append") then
    open_append target_file;;
    content ← getitem change "content";
    write_append target_file content;;
    mret PyNone
  else if bool_decide (change_type = "replace") then
    content ← read_file target_file;
    search_pattern ← getitem change "search_pattern";
    replacement ← getitem change "replacement";
    updated_content ← lift (re_sub search_pattern replacement content);
    if bool_decide (updated_content = content) then
      raise (PatternNotMatched search_pattern target_file)
    else
      write_file target_file updated_content;;
      mret PyNone
  else raise (UnknownChangeType change_type).

(** [def update_codebase_md(self)], with [self.changes] as argument *)
Definition update_codebase_md (changes : list (gmap string string)) : M PyValue :=
  open_append codebase_md_path;;
  write_append codebase_md_path recent_changes_header;;
  for_each (λ change,
     description ← getitem change "description";
     write_append codebase_md_path ("- " +:+ description +:+ nl)) changes;;
  mret PyNone.

(** [def commit_changes(self)], with [self.changes] as argument *)
Definition commit_changes (changes : list (gmap string string)) : M PyValue :=
  git_Repo;;
  targets ← comprehension (λ change, getitem change "target_file") changes;
  index_add (codebase_md_path :: targets);;
  descriptions ← comprehension (λ change, getitem change "description") changes;
  let commit_message := commit_preamble +:+ nl +:+ String.concat nl descriptions in
  index_commit commit_message;;
  mret PyNone.

(** [PythonJavaScriptRefactorizor(changes)] *)
Definition new (changes : list (gmap string string)) : Refactorizor.t :=
  Refactorizor.mk changes apply_changes
    (update_codebase_md changes) (commit_changes changes).

End Engine.

End PythonJavaScriptRefactorizor.

Import PythonJavaScriptRefactorizor.

(** A dict literal. *)
Definition dict (items : list (string * string)) : gmap string string :=
  list_to_map items.

(** ** The script: [if __name__ == "__main__"] *)

Definition chat_routes_py : string := "backend/app/api/chat_routes.py".

Definition chat_routes_pattern : string :=
  "input_data = request\.json\['message'\]".

Definition chat_routes_replacement : string :=
  "input_data = request.json.get('message')" +:+ nl +:+
  "if not input_data or not isinstance(input_data, str):" +:+ nl +:+
  "    return jsonify({'error': 'Invalid input data'}), 400" +:+ nl.

Definition main_change_1 : gmap string string :=
  dict [("description", "Add error handling in chat_routes.py");
        ("target_file", chat_routes_py);
        ("search_pattern", chat_routes_pattern);
        ("replacement", chat_routes_replacement);
        ("change_type", "replace")].

Definition main_change_2 : gmap string string :=
  dict [("description", "Add sanitize_input function to utils.js");
        ("target_file", "frontend/src/utils.js");
        ("content",
         nl +:+ "export function sanitize_input(input) {" +:+ nl +:+
         "  const sanitized_input = input.replace(/</g, '&lt;').replace(/>/g, '&gt;');"
         +:+ nl +:+
         "  return sanitized_input;" +:+ nl +:+
         "}" +:+ nl);
        ("change_type", "append")].

Definition main_change_3 : gmap string string :=
  dict [("description", "Refactor Chat.js to use useReducer");
        ("target_file", "frontend/src/components/Chat.js");
        ("search_pattern",
         "import React, { useState } from 'react';\n" +:+
         "const \[messages, setMessages\] = useState\(\[\]\);");
        ("replacement",
         "import React, { useReducer } from 'react';" +:+ nl +:+
         "const initialState = { messages: [] };" +:+ nl +:+
         "const reducer = (state, action) => {" +:+ nl +:+
         "  switch (action.type) {" +:+ nl +:+
         "    case 'addMessage':" +:+ nl +:+
         "      return { messages: [...state.messages, action.message] };" +:+ nl +:+
         "    default:" +:+ nl +:+
         "      return state;" +:+ nl +:+
         "  }" +:+ nl +:+
         "};" +:+ nl +:+
         "const [state, dispatch] = useReducer(reducer, initialState);" +:+ nl +:+
         "const { messages } = state;");
        ("change_type", "replace")].

Definition main_changes : list (gmap string string) :=
  [main_change_1; main_change_2; main_change_3].

(** [refactorizor = PythonJavaScriptRefactorizor(changes)] and
    [refactorizor.execute()] *)
Definition main (re_sub : string → string → string → PyExc + string) : M PyValue :=
  Refactorizor.execute (PythonJavaScriptRefactorizor.new re_sub main_changes).

(** A working tree in which the script succeeds. *)
Definition main_world : World :=
  mkWorld
    (dict [(chat_routes_py,
            "def chat():" +:+ nl +:+ "    input_data = request.json['message']" +:+ nl);
           ("frontend/src/utils.js", "// utils" +:+ nl);
           ("frontend/src/components/Chat.js",
            "import React, { useState } from 'react';" +:+ nl +:+
            "const [messages, setMessages] = useState([]);" +:+ nl)])
    (Some (mkRepo ∅ [])).

(** ** Sample inputs

    The scenario of two changes on two files, and changes that fail. *)

Definition hello : string := nl +:+ "hello" +:+ nl.

Definition change_hello : gmap string string :=
  dict [("description", "Say hello"); ("target_file", "one.txt");
        ("content", hello); ("change_type", "append")].

Definition change_foo : gmap string string :=
  dict [("description", "Rename foo to bar"); ("target_file", "two.txt");
        ("search_pattern", "foo"); ("replacement", "bar");
        ("change_type", "replace")].

Definition change_missing : gmap string string :=
  dict [("description", "Patch a file that is not there");
        ("target_file", "missing.txt"); ("content", "x"); ("change_type", "append")].

Definition change_baz : gmap string string :=
  dict [("description", "Rename baz to qux"); ("target_file", "two.txt");
        ("search_pattern", "baz"); ("replacement", "qux");
        ("change_type", "replace")].

Definition change_delete : gmap string string :=
  dict [("description", "Delete a file"); ("target_file", "two.txt");
        ("change_type", "delete")].

Definition change_ab : gmap string string :=
  dict [("description", "Drop the a before b"); ("target_file", "text.txt");
        ("search_pattern", "ab"); ("replacement", "b");
        ("change_type", "replace")].

Definition world_with_text (text : string) : World :=
  mkWorld (dict [("text.txt", text)]) None.

(** The line end of DOS: a carriage return and a newline. *)
Definition crlf : string := String CR nl.

(** A file of two lines [foo], the first closed by the line end of DOS,
    and what a change of [foo] into [bar] can make of it. *)
Definition foo_crlf_foo : string := "foo" +:+ crlf +:+ "foo".


Definition bar_lf_bar : string := "bar" +:+ nl +:+ "bar".

Definition dos_world : World :=
  mkWorld (dict [("two.txt", foo_crlf_foo)]) None.

(** A replace change on [text.txt]. *)
Definition change_text (search_pattern replacement : string) : gmap string string :=
  dict [("description", "Edit the text"); ("target_file", "text.txt");
        ("search_pattern", search_pattern); ("replacement", replacement);
        ("change_type", "replace")].

Definition empty_repo : Repo := mkRepo ∅ [].

(** A repository whose file [text.txt] is the line [a], closed by the
    line end of DOS, and [b]. *)
Definition a_crlf_b : string := "a" +:+ crlf +:+ "b".

Definition dos_text_world : World :=
  mkWorld (dict [("text.txt", a_crlf_b)]) (Some empty_repo).

Definition sample_world : World :=
  mkWorld (dict [("one.txt", ""); ("two.txt", "foo foo")]) (Some empty_repo).

(** [sample_world] once [change_hello] has been applied. *)
Definition sample_world_hello : World :=
  mkWorld (dict [("one.txt", hello); ("two.txt", "foo foo")]) (Some empty_repo).

(** [sample_world] once both changes have been applied and documented. *)
Definition sample_changelog : string :=
  recent_changes_header +:+ bullet_lines ["Say hello"; "Rename foo to bar"].

Definition sample_world_documented : World :=
  mkWorld (dict [("one.txt", hello); ("two.txt", "bar bar");
                 ("CODEBASE.md", sample_changelog)])
          (Some empty_repo).

(** The same after the commit phase. *)
Definition sample_message : string :=
  commit_preamble +:+ nl +:+ "Say hello" +:+ nl +:+ "Rename foo to bar".

Definition sample_world_committed : World :=
  mkWorld (fs sample_world_documented)
          (Some (mkRepo (fs sample_world_documented)
                        [mkCommit sample_message (fs sample_world_documented)])).

(** The world an empty change list leaves after the document phase. *)
Definition changelog_with_header (w : World) : string :=
  default "" (fs w !! codebase_md_path) +:+ recent_changes_header.

(** The text the append changes of a list add to the file [path], in
    list order. *)
Definition appended_text (path : string) (changes : list (gmap string string)) : string :=
  foldr (λ c rest,
           if bool_decide (c !! "target_file" = Some path)
           then default "" (c !! "content") +:+ rest
           else rest) "" changes.

(** An append change that can be applied in the working tree [files]. *)
Definition appendable (files : gmap string string) (c : gmap string string) : Prop :=
  c !! "change_type" = Some "append"
  ∧ is_Some (c !! "content")
  ∧ ∃ p, c !! "target_file" = Some p ∧ is_Some (files !! p).

(** Whether every dict of a list has the key. *)
Fixpoint all_have (key : string) (dicts : list (gmap string string)) : bool :=
  match dicts with
  | [] => true
  | d :: dicts' =>
      match d !! key with
      | Some _ => all_have key dicts'
      | None => false
      end
  end.

(** The values the dicts of a list have under the key. *)
Definition values_of (key : string) (dicts : list (gmap string string)) : list string :=
  omap (λ d, d !! key) dicts.

(** The descriptions of the changes in front of the first change that has
    none. *)
Fixpoint described_prefix (changes : list (gmap string string)) : list string :=
  match changes with
  | [] => []
  | c :: changes' =>
      match c !! "description" with
      | Some d => d :: described_prefix changes'
      | None => []
      end
  end.

(** A change of a known type whose target file is in [files]. *)
Definition applicable_shape (files : gmap string string) (c : gmap string string) : Prop :=
  (c !! "change_type" = Some "append" ∨ c !! "change_type" = Some "replace")
  ∧ ∃ p, c !! "target_file" = Some p ∧ is_Some (files !! p).

(** The working tree once the document step has run on it. *)
Definition with_changelog (changes : list (gmap string string))
    (files : gmap string string) : gmap string string :=
  <[codebase_md_path :=
      default "" (files !! codebase_md_path)
      +:+ recent_changes_header
      +:+ bullet_lines (described_prefix changes)]> files.

(** * Properties *)

(** ** Running computations *)

Lemma run_bind {A B} (m : M A) (k : A → M B) w :
  (m ≫= k) w =
  match m w with
  | (inr a, w') => k a w'
  | (inl e, w') => (inl e, w')
  end.
Proof. reflexivity. Qed.

Lemma run_ret {A} (a : A) w : (mret a : M A) w = (inr a, w).
Proof. reflexivity. Qed.

Lemma run_getitem d key w :
  getitem d key w =
  match d !! key with
  | Some v => (inr v, w)
  | None => (inl (KeyError key), w)
  end.
Proof. unfold getitem. by destruct (d !! key). Qed.

Lemma run_path_exists_Some path s w :
  fs w !! path = Some s → path_exists path w = (inr true, w).
Proof. intros H. unfold path_exists. by rewrite bool_decide_true; [|eauto]. Qed.

Lemma run_path_exists_None path w :
  fs w !! path = None → path_exists path w = (inr false, w).
Proof.
  intros H. unfold path_exists. rewrite bool_decide_false; [done|].
  rewrite H. by intros [? ?].
Qed.

Lemma set_fs_id (w : World) : mkWorld (fs w) (repo w) = w.
Proof. by destruct w. Qed.

Lemma string_app_assoc (a b c : string) : (a +:+ b) +:+ c = a +:+ b +:+ c.
Proof.
  induction a as [|x a IH]; [done|].
  change (String x ((a +:+ b) +:+ c) = String x (a +:+ b +:+ c)). by rewrite IH.
Qed.

Lemma string_app_nil_r (a : string) : a +:+ "" = a.
Proof.
  induction a as [|x a IH]; [done|].
  change (String x (a +:+ "") = String x a). by rewrite IH.
Qed.

(** ** Reading in text mode *)

Lemma no_cr_cons c s :
  no_cr (c :: s) = true ↔ c ≠ CR ∧ no_cr s = true.
Proof.
  unfold no_cr. cbn [forallb]. rewrite andb_true_iff, negb_true_iff.
  by rewrite bool_decide_eq_false.
Qed.

Lemma no_cr_app s1 s2 :
  no_cr (s1 ++ s2) = true ↔ no_cr s1 = true ∧ no_cr s2 = true.
Proof. unfold no_cr. by rewrite forallb_app, andb_true_iff. Qed.

(** The text read holds no carriage return. *)
Lemma universal_newlines_no_cr s :
  no_cr (list_ascii_of_string (universal_newlines s)) = true.
Proof.
  remember (String.length s) as n eqn:Hn. revert s Hn.
  induction (lt_wf n) as [n _ IH]. intros s ->.
  destruct s as [|c rest]; [done|]. cbn [universal_newlines].
  case_bool_decide as Hc.
  - destruct rest as [|c' rest']; [done|].
    case_bool_decide as Hc'; cbn [list_ascii_of_string]; apply no_cr_cons;
      (split; [done|]).
    + apply (IH (String.length rest')); [cbn; lia|done].
    + apply (IH (String.length (String c' rest'))); [cbn; lia|done].
  - cbn [list_ascii_of_string]. apply no_cr_cons. split; [done|].
    apply (IH (String.length rest)); [cbn; lia|done].
Qed.

(** A text without carriage return is read as it is. *)
Lemma universal_newlines_id s :
  no_cr (list_ascii_of_string s) = true → universal_newlines s = s.
Proof.
  induction s as [|c rest IH]; [done|].
  cbn [list_ascii_of_string]. intros [Hc Hrest]%no_cr_cons.
  cbn [universal_newlines]. rewrite bool_decide_false by done.
  by rewrite IH.
Qed.

(** Reading what has been read changes nothing. *)
Lemma universal_newlines_idemp s :
  universal_newlines (universal_newlines s) = universal_newlines s.
Proof. apply universal_newlines_id, universal_newlines_no_cr. Qed.

Lemma execute_unfold re_sub changes w :
  Refactorizor.execute (PythonJavaScriptRefactorizor.new re_sub changes) w
  = (for_each (apply_changes re_sub) changes
       ≫= λ _, update_codebase_md changes
       ≫= λ _, commit_changes changes ≫= λ _, mret PyNone) w.
Proof. reflexivity. Qed.

Lemma for_each_app {A B} (f : A → M B) (l1 l2 : list A) w :
  for_each f (l1 ++ l2) w =
  match for_each f l1 w with
  | (inr _, w1) => for_each f l2 w1
  | (inl e, w1) => (inl e, w1)
  end.
Proof.
  revert w. induction l1 as [|x l1 IH]; intros w; [done|].
  cbn [for_each app]. rewrite !run_bind.
  destruct (f x w) as [[e|b] w']; [done|]. apply IH.
Qed.

Lemma for_each_stops {A B} (f : A → M B) pre x post w w1 e w2 :
  for_each f pre w = (inr tt, w1) →
  f x w1 = (inl e, w2) →
  for_each f (pre ++ x :: post) w = (inl e, w2).
Proof.
  intros Hpre Hx. rewrite for_each_app, Hpre.
  cbn [for_each]. by rewrite run_bind, Hx.
Qed.

(** ** One change at a time *)

Section ApplyChanges.

Variable re_sub : string → string → string → PyExc + string.

Lemma apply_changes_missing_file c w ty p :
  c !! "change_type" = Some ty →
  c !! "target_file" = Some p →
  fs w !! p = None →
  apply_changes re_sub c w = (inl (FileNotFound p), w).
Proof.
  intros Hty Hp Hno. unfold apply_changes.
  rewrite run_bind, run_getitem, Hty, run_bind, run_getitem, Hp.
  by rewrite run_bind, (run_path_exists_None _ _ Hno).
Qed.

Lemma apply_changes_append c w p old content :
  c !! "change_type" = Some "append" →
  c !! "target_file" = Some p →
  fs w !! p = Some old →
  c !! "content" = Some content →
  apply_changes re_sub c w = (inr PyNone, set_fs <[p := old +:+ content]> w).
Proof.
  intros Hty Hp Hold Hc. unfold apply_changes.
  rewrite run_bind, run_getitem, Hty, run_bind, run_getitem, Hp.
  rewrite run_bind, (run_path_exists_Some _ _ _ Hold). cbn [negb].
  rewrite bool_decide_true by done.
  rewrite run_bind. unfold open_append at 1. rewrite Hold.
  rewrite run_bind, run_getitem, Hc, run_bind.
  unfold write_append. by rewrite Hold.
Qed.

Lemma apply_changes_replace c w p content pat repl :
  c !! "change_type" = Some "replace" →
  c !! "target_file" = Some p →
  fs w !! p = Some content →
  c !! "search_pattern" = Some pat →
  c !! "replacement" = Some repl →
  apply_changes re_sub c w =
  match re_sub pat repl (universal_newlines content) with
  | inl e => (inl e, w)
  | inr updated =>
      if bool_decide (updated = universal_newlines content)
      then (inl (PatternNotMatched pat p), w)
      else (inr PyNone, set_fs <[p := updated]> w)
  end.
Proof.
  intros Hty Hp Hold Hpat Hrepl. unfold apply_changes.
  rewrite run_bind, run_getitem, Hty, run_bind, run_getitem, Hp.
  rewrite run_bind, (run_path_exists_Some _ _ _ Hold). cbn [negb].
  rewrite bool_decide_false by done. rewrite bool_decide_true by done.
  rewrite run_bind. unfold read_file at 1. rewrite Hold.
  rewrite run_bind, run_getitem, Hpat, run_bind, run_getitem, Hrepl, run_bind.
  destruct (re_sub pat repl _) as [e|updated]; [done|].
  cbn [lift]. rewrite run_ret. by case_bool_decide.
Qed.

Lemma apply_changes_unknown c w ty p :
  c !! "change_type" = Some ty →
  ty ≠ "append" →
  ty ≠ "replace" →
  c !! "target_file" = Some p →
  is_Some (fs w !! p) →
  apply_changes re_sub c w = (inl (UnknownChangeType ty), w).
Proof.
  intros Hty Ha Hr Hp [old Hold]. unfold apply_changes.
  rewrite run_bind, run_getitem, Hty, run_bind, run_getitem, Hp.
  rewrite run_bind, (run_path_exists_Some _ _ _ Hold). cbn [negb].
  by rewrite !bool_decide_false by done.
Qed.

(** Whatever happens, a change writes to its own target file at most,
    and never to the repository. *)
Lemma apply_changes_frame c w r w' :
  apply_changes re_sub c w = (r, w') →
  repo w' = repo w
  ∧ ∀ path, c !! "target_file" ≠ Some path → fs w' !! path = fs w !! path.
Proof.
  unfold apply_changes. rewrite run_bind, run_getitem.
  destruct (c !! "change_type") as [ty|] eqn:Hty; [|by intros [= _ <-]].
  rewrite run_bind, run_getitem.
  destruct (c !! "target_file") as [p|] eqn:Hp; [|by intros [= _ <-]].
  rewrite run_bind. destruct (fs w !! p) as [old|] eqn:Hold.
  2:{ rewrite (run_path_exists_None _ _ Hold). by intros [= _ <-]. }
  rewrite (run_path_exists_Some _ _ _ Hold). cbn [negb].
  assert (∀ s path, Some p ≠ Some path →
            fs (set_fs <[p := s]> w) !! path = fs w !! path) as Hframe.
  { intros s path Hne. cbn. apply lookup_insert_ne. congruence. }
  case_bool_decide as Ha.
  - rewrite run_bind. unfold open_append at 1. rewrite Hold.
    rewrite run_bind, run_getitem.
    destruct (c !! "content") as [content|]; [|by intros [= _ <-]].
    rewrite run_bind. unfold write_append. rewrite Hold.
    intros [= _ <-]. split; [done|]. apply Hframe.
  - case_bool_decide as Hr; [|by intros [= _ <-]].
    rewrite run_bind. unfold read_file at 1. rewrite Hold.
    rewrite run_bind, run_getitem.
    destruct (c !! "search_pattern") as [pat|]; [|by intros [= _ <-]].
    rewrite run_bind, run_getitem.
    destruct (c !! "replacement") as [repl|]; [|by intros [= _ <-]].
    rewrite run_bind.
    destruct (re_sub pat repl _) as [e|updated]; cbn [lift]; [by intros [= _ <-]|].
    rewrite run_ret. case_bool_decide; [by intros [= _ <-]|].
    rewrite run_bind. unfold write_file.
    intros [= _ <-]. split; [done|]. apply Hframe.
Qed.

(** A change that raises has written nothing. *)
Lemma apply_changes_failure_writes_nothing c w e w' :
  apply_changes re_sub c w = (inl e, w') → w' = w.
Proof.
  unfold apply_changes. rewrite run_bind, run_getitem.
  destruct (c !! "change_type") as [ty|] eqn:Hty; [|by intros [= _ <-]].
  rewrite run_bind, run_getitem.
  destruct (c !! "target_file") as [p|] eqn:Hp; [|by intros [= _ <-]].
  rewrite run_bind. destruct (fs w !! p) as [old|] eqn:Hold.
  2:{ rewrite (run_path_exists_None _ _ Hold). by intros [= _ <-]. }
  rewrite (run_path_exists_Some _ _ _ Hold). cbn [negb].
  case_bool_decide as Ha.
  - rewrite run_bind. unfold open_append at 1. rewrite Hold.
    rewrite run_bind, run_getitem.
    destruct (c !! "content") as [content|]; [|by intros [= _ <-]].
    rewrite run_bind. unfold write_append. discriminate.
  - case_bool_decide as Hr; [|by intros [= _ <-]].
    rewrite run_bind. unfold read_file at 1. rewrite Hold.
    rewrite run_bind, run_getitem.
    destruct (c !! "search_pattern") as [pat|]; [|by intros [= _ <-]].
    rewrite run_bind, run_getitem.
    destruct (c !! "replacement") as [repl|]; [|by intros [= _ <-]].
    rewrite run_bind.
    destruct (re_sub pat repl _) as [e'|updated]; cbn [lift]; [by intros [= _ <-]|].
    rewrite run_ret. case_bool_decide; [by intros [= _ <-]|].
    rewrite run_bind. unfold write_file. discriminate.
Qed.

(** The apply phase as a whole. *)
Lemma apply_phase_frame changes w r w' :
  for_each (apply_changes re_sub) changes w = (r, w') →
  repo w' = repo w
  ∧ ∀ path, (∀ c, c ∈ changes → c !! "target_file" ≠ Some path) →
            fs w' !! path = fs w !! path.
Proof.
  revert w. induction changes as [|c changes IH]; intros w.
  - by intros [= _ <-].
  - cbn [for_each]. rewrite run_bind.
    destruct (apply_changes re_sub c w) as [[e|v] w1] eqn:Hc.
    + intros [= _ <-]. apply apply_changes_frame in Hc as [Hrepo Hfs].
      split; [done|]. intros path Hpath. apply Hfs, Hpath. left.
    + intros Hrest. apply apply_changes_frame in Hc as [Hrepo Hfs].
      apply IH in Hrest as [Hrepo' Hfs']. split; [congruence|].
      intros path Hpath. rewrite Hfs', Hfs; [done| |].
      * apply Hpath. left.
      * intros c' Hc'. apply Hpath. by right.
Qed.

(** A failing change stops [execute] on the spot, whatever the class. *)
Lemma Refactorizor_execute_stops (self : Refactorizor.t) pre c post w w1 e w2 :
  Refactorizor.changes self = pre ++ c :: post →
  for_each (Refactorizor.apply_changes self) pre w = (inr tt, w1) →
  Refactorizor.apply_changes self c w1 = (inl e, w2) →
  Refactorizor.execute self w = (inl e, w2).
Proof.
  intros Hchanges Hpre Hc. unfold Refactorizor.execute.
  by rewrite run_bind, Hchanges, (for_each_stops _ _ _ post _ _ _ _ Hpre Hc).
Qed.

Lemma execute_stops pre c post w w1 e w2 :
  for_each (apply_changes re_sub) pre w = (inr tt, w1) →
  apply_changes re_sub c w1 = (inl e, w2) →
  Refactorizor.execute
      (PythonJavaScriptRefactorizor.new re_sub (pre ++ c :: post))
      w = (inl e, w2).
Proof.
  intros Hpre Hc.
  by apply (Refactorizor_execute_stops
              (PythonJavaScriptRefactorizor.new re_sub (pre ++ c :: post))
              pre c post w w1).
Qed.

End ApplyChanges.

(** ** The document phase *)

Lemma set_fs_insert_insert p a b w :
  set_fs <[p := b]> (set_fs <[p := a]> w) = set_fs <[p := b]> w.
Proof. unfold set_fs. cbn. by rewrite insert_insert_eq. Qed.

Lemma write_bullets changes descriptions old w :
  has_values "description" changes descriptions →
  fs w !! codebase_md_path = Some old →
  for_each (λ change,
     description ← getitem change "description";
     write_append codebase_md_path ("- " +:+ description +:+ nl)) changes w
  = (inr tt, set_fs <[codebase_md_path := old +:+ bullet_lines descriptions]> w).
Proof.
  intros Hd. revert old w.
  induction Hd as [|c d changes descriptions Hc _ IH]; intros old w Hold.
  - cbn [for_each bullet_lines foldr]. rewrite run_ret, string_app_nil_r.
    unfold set_fs. rewrite insert_id by done. by rewrite set_fs_id.
  - cbn [for_each]. rewrite run_bind, run_bind, run_getitem, Hc.
    unfold write_append at 1. rewrite Hold. cbn [default].
    erewrite IH; [|apply lookup_insert_eq].
    rewrite set_fs_insert_insert. cbn [bullet_lines foldr].
    by rewrite !string_app_assoc.
Qed.

Lemma update_codebase_md_writes changes descriptions w :
  has_values "description" changes descriptions →
  update_codebase_md changes w =
  (inr PyNone,
   set_fs <[codebase_md_path :=
              default "" (fs w !! codebase_md_path)
              +:+ recent_changes_header +:+ bullet_lines descriptions]> w).
Proof.
  intros Hd. unfold update_codebase_md.
  rewrite run_bind. unfold open_append at 1.
  rewrite run_bind. unfold write_append at 1.
  rewrite run_bind.
  destruct (fs w !! codebase_md_path) as [old|] eqn:Hold.
  - rewrite Hold. cbn [default].
    erewrite write_bullets; [|done|apply lookup_insert_eq].
    by rewrite set_fs_insert_insert, string_app_assoc.
  - cbn [fs set_fs]. rewrite lookup_insert_eq. cbn [default].
    erewrite write_bullets; [|done|apply lookup_insert_eq].
    by rewrite !set_fs_insert_insert, string_app_assoc.
Qed.

(** The document phase never touches the repository, and writes to the
    changelog alone. *)
Lemma write_bullets_frame changes w r w' :
  for_each (λ change,
     description ← getitem change "description";
     write_append codebase_md_path ("- " +:+ description +:+ nl)) changes w = (r, w') →
  repo w' = repo w
  ∧ ∀ path, path ≠ codebase_md_path → fs w' !! path = fs w !! path.
Proof.
  revert w. induction changes as [|c changes IH]; intros w.
  - by intros [= _ <-].
  - cbn [for_each]. rewrite run_bind, run_bind, run_getitem.
    destruct (c !! "description") as [d|]; [|by intros [= _ <-]].
    unfold write_append at 1. intros [Hrepo Hfs]%IH. split; [done|].
    intros path Hne. rewrite Hfs by done. cbn. by apply lookup_insert_ne.
Qed.

Lemma update_codebase_md_frame changes w r w' :
  update_codebase_md changes w = (r, w') →
  repo w' = repo w
  ∧ ∀ path, path ≠ codebase_md_path → fs w' !! path = fs w !! path.
Proof.
  unfold update_codebase_md.
  rewrite run_bind. unfold open_append at 1.
  rewrite run_bind. unfold write_append at 1. rewrite run_bind.
  match goal with
  | |- context [for_each ?f changes ?w1] =>
      destruct (for_each f changes w1) as [[e|[]] w2] eqn:Hloop
  end.
  all: apply write_bullets_frame in Hloop as [Hrepo Hfs].
  all: rewrite ?run_ret; intros [= _ <-]; split.
  all: try (rewrite Hrepo; by destruct (fs w !! codebase_md_path)).
  all: intros path Hne; rewrite Hfs by done; cbn.
  all: rewrite lookup_insert_ne by done.
  all: destruct (fs w !! codebase_md_path); [done|]; cbn.
  all: by rewrite lookup_insert_ne.
Qed.

(** ** The commit phase *)

Lemma comprehension_getitem key dicts values w :
  has_values key dicts values →
  comprehension (λ d, getitem d key) dicts w = (inr values, w).
Proof.
  intros H. induction H as [|d v dicts values Hd _ IH]; [done|].
  cbn [comprehension]. by rewrite run_bind, run_getitem, Hd, run_bind, IH.
Qed.

Lemma comprehension_getitem_pure key dicts w r w' :
  comprehension (λ d, getitem d key) dicts w = (r, w') → w' = w.
Proof.
  revert r w'. induction dicts as [|d dicts IH]; intros r w'.
  - by intros [= _ <-].
  - cbn [comprehension]. rewrite run_bind, run_getitem.
    destruct (d !! key); [|by intros [= _ <-]].
    rewrite run_bind.
    destruct (comprehension _ dicts w) as [[e|vs] w1].
    all: rewrite (IH _ _ eq_refl); by intros [= _ <-].
Qed.

Lemma read_paths_present files paths :
  (∀ p, p ∈ paths → is_Some (files !! p)) →
  read_paths files paths = inr (working_tree_entries files paths).
Proof.
  induction paths as [|p paths IH]; intros Hall; [done|].
  cbn [read_paths]. destruct (Hall p) as [s Hs]; [left|].
  rewrite Hs, IH.
  - unfold working_tree_entries. cbn. by rewrite Hs.
  - intros q Hq. apply Hall. by right.
Qed.

Lemma stage_lookup files idx paths q :
  stage idx (working_tree_entries files paths) !! q =
  if decide (q ∈ paths) then Some (default "" (files !! q)) else idx !! q.
Proof.
  revert idx. induction paths as [|p paths IH]; intros idx.
  - cbn. case_decide as H; [|done]. by apply elem_of_nil in H.
  - unfold stage, working_tree_entries. cbn [fmap list_fmap foldl fst snd].
    fold (working_tree_entries files paths).
    fold (stage (<[p := default "" (files !! p)]> idx) (working_tree_entries files paths)).
    rewrite IH. destruct (decide (q ∈ paths)) as [Hin|Hnin].
    + rewrite decide_True; [done|by right].
    + destruct (decide (q = p)) as [->|Hne].
      * rewrite decide_True by left. apply lookup_insert_eq.
      * rewrite decide_False; [by apply lookup_insert_ne|].
        intros [?|?]%elem_of_cons; done.
Qed.

(** Staging a list of paths is staging each distinct path once. *)
Lemma stage_remove_dups files idx paths :
  stage idx (working_tree_entries files (remove_dups paths))
  = stage idx (working_tree_entries files paths).
Proof.
  apply map_eq. intros q. rewrite !stage_lookup.
  destruct (decide (q ∈ paths)) as [Hin|Hnin].
  - rewrite decide_True; [done|]. by apply elem_of_remove_dups.
  - rewrite decide_False; [done|]. by rewrite elem_of_remove_dups.
Qed.

Lemma stage_dom files idx paths :
  (∀ p, p ∈ paths → is_Some (files !! p)) →
  dom (stage idx (working_tree_entries files paths)) = dom idx ∪ list_to_set paths.
Proof.
  intros Hall. apply set_eq. intros q.
  rewrite elem_of_dom, stage_lookup, elem_of_union, elem_of_dom, elem_of_list_to_set.
  destruct (decide (q ∈ paths)) as [Hin|Hnin].
  - split; [by right|]. intros _. eauto.
  - split; [by left|]. by intros [?|?].
Qed.

Lemma commit_changes_commits changes targets descriptions w r :
  repo w = Some r →
  has_values "target_file" changes targets →
  has_values "description" changes descriptions →
  (∀ p, p ∈ codebase_md_path :: targets → is_Some (fs w !! p)) →
  let idx := stage (index r) (working_tree_entries (fs w) (codebase_md_path :: targets)) in
  commit_changes changes w =
  (inr PyNone,
   mkWorld (fs w)
     (Some (mkRepo idx
        (commits r ++
           [mkCommit (commit_preamble +:+ nl +:+ String.concat nl descriptions) idx])))).
Proof.
  intros Hr Ht Hd Hall idx. unfold commit_changes.
  rewrite run_bind. unfold git_Repo at 1. rewrite Hr.
  rewrite run_bind, (comprehension_getitem _ _ _ _ Ht).
  rewrite run_bind. unfold index_add at 1.
  rewrite Hr, (read_paths_present _ _ Hall).
  rewrite run_bind, (comprehension_getitem _ _ _ _ Hd).
  rewrite run_bind. unfold index_commit. cbn [repo fs index commits].
  by rewrite run_ret.
Qed.

(** [sep.join] puts the separator between the lines, the message puts
    one more in front. *)
Lemma concat_description_lines d ds :
  nl +:+ String.concat nl (d :: ds) = description_lines (d :: ds).
Proof.
  revert d. induction ds as [|d' ds IH]; intros d.
  - cbn [String.concat description_lines foldr]. by rewrite string_app_nil_r.
  - change (String.concat nl (d :: d' :: ds))
      with (d +:+ nl +:+ String.concat nl (d' :: ds)).
    rewrite IH. reflexivity.
Qed.

(** A commit phase that returns has added one commit, and returns
    nothing of it. *)
Lemma commit_changes_returns changes w v w' :
  commit_changes changes w = (inr v, w') →
  v = PyNone
  ∧ ∃ r idx message,
      repo w = Some r
      ∧ w' = mkWorld (fs w) (Some (mkRepo idx (commits r ++ [mkCommit message idx]))).
Proof.
  unfold commit_changes. rewrite run_bind. unfold git_Repo at 1.
  destruct (repo w) as [r|] eqn:Hr; [|done].
  rewrite run_bind.
  destruct (comprehension _ changes w) as [[e|targets] w1] eqn:Ht; [done|].
  apply comprehension_getitem_pure in Ht as ->.
  rewrite run_bind. unfold index_add at 1. rewrite Hr.
  destruct (read_paths _ _) as [missing|entries]; [done|].
  rewrite run_bind.
  match goal with
  | |- context [comprehension ?f changes ?w1] =>
      destruct (comprehension f changes w1) as [[e|descriptions] w2] eqn:Hd; [done|]
  end.
  apply comprehension_getitem_pure in Hd as ->.
  rewrite run_bind. unfold index_commit. cbn [repo fs index commits].
  rewrite run_ret. intros [= <- <-]. split; [done|]. eauto.
Qed.

(** ** The substitution loop *)

Module ReFacts.
Import Re.

Lemma matches_length p m : matches p m → length m = length p.
Proof. intros H. symmetry. by eapply Forall2_length. Qed.

Lemma match_here_sound p s m rest :
  match_here p s = Some (m, rest) → s = m ++ rest ∧ matches p m.
Proof.
  revert s m rest. induction p as [|a p IH]; intros s m rest.
  - intros [= <- <-]. split; [done|constructor].
  - cbn [match_here]. destruct s as [|c s]; [done|].
    destruct (atom_matches a c) eqn:Hac; [|done].
    destruct (match_here p s) as [[m' rest']|] eqn:Hm; [|done].
    intros [= <- <-]. apply IH in Hm as [-> Hm]. split; [done|].
    by constructor.
Qed.

Lemma match_here_complete p m rest :
  matches p m → match_here p (m ++ rest) = Some (m, rest).
Proof.
  intros H. induction H as [|a c p m Hac _ IH]; [done|].
  cbn [match_here app]. by rewrite Hac, IH.
Qed.


Lemma search_unfold p adv s :
  search p adv s =
  match here p adv s with
  | Some (m, rest) => Some ([], m, rest)
  | None =>
      match s with
      | [] => None
      | c :: s' =>
          match search p false s' with
          | Some (pre, m, rest) => Some (c :: pre, m, rest)
          | None => None
          end
      end
  end.
Proof. by destruct s. Qed.

Lemma here_Some p adv s m rest :
  here p adv s = Some (m, rest) → occurrence p adv s [] m rest.
Proof.
  unfold here. destruct (match_here p s) as [[m' rest']|] eqn:Hm; [|done].
  destruct (adv && bool_decide (m' = [])) eqn:Hadv; [done|].
  intros [= <- <-]. apply match_here_sound in Hm as [-> Hm].
  split_and!; [done..|]. intros (-> & _ & ->). by rewrite bool_decide_true in Hadv.
Qed.

Lemma here_None p adv s m rest :
  here p adv s = None → ¬ occurrence p adv s [] m rest.
Proof.
  unfold here. intros Hhere (-> & Hm & Hadv). cbn [app] in Hhere.
  rewrite (match_here_complete _ _ _ Hm) in Hhere.
  destruct adv; [|done]. cbn [andb] in Hhere.
  case_bool_decide; [|done]. by apply Hadv.
Qed.

Lemma occurrence_cons p adv c s pre m rest :
  occurrence p adv (c :: s) pre m rest →
  occurrence p adv (c :: s) [] m rest ∧ pre = []
  ∨ ∃ pre', pre = c :: pre' ∧ occurrence p false s pre' m rest.
Proof.
  intros (Hs & Hm & Hadv). destruct pre as [|c' pre'].
  - left. by split_and!.
  - right. cbn [app] in Hs. injection Hs as <- ->. exists pre'.
    split; [done|]. split_and!; [done..|]. by intros [? _].
Qed.

Lemma search_spec p adv s :
  match search p adv s with
  | Some (pre, m, rest) => leftmost p adv s pre m rest
  | None => ∀ pre m rest, ¬ occurrence p adv s pre m rest
  end.
Proof.
  revert adv. induction s as [|c s IH]; intros adv; rewrite search_unfold.
  - destruct (here p adv []) as [[m rest]|] eqn:Hhere.
    + split; [by apply here_Some|]. intros; cbn; lia.
    + intros pre m rest Hocc. pose proof Hocc as (Hs & _).
      destruct pre; [|done]. by eapply here_None.
  - destruct (here p adv (c :: s)) as [[m rest]|] eqn:Hhere.
    + split; [by apply here_Some|]. intros; cbn; lia.
    + specialize (IH false).
      destruct (search p false s) as [[[pre m] rest]|].
      * destruct IH as [(Hs & Hm & _) Hleft]. split.
        -- split_and!; [by rewrite Hs|done|]. by intros (_ & ? & _).
        -- intros pre' m' rest' [[Hocc _]|(pre'' & -> & Hocc)]%occurrence_cons.
           ++ by eapply here_None in Hocc.
           ++ cbn [length]. apply Hleft in Hocc. lia.
      * intros pre m rest [[Hocc _]|(pre' & -> & Hocc)]%occurrence_cons.
        -- by eapply here_None in Hocc.
        -- by eapply IH.
Qed.

Lemma search_Some p adv s pre m rest :
  search p adv s = Some (pre, m, rest) → leftmost p adv s pre m rest.
Proof. intros H. pose proof (search_spec p adv s) as Hs. by rewrite H in Hs. Qed.

Lemma search_None p adv s :
  search p adv s = None → ∀ pre m rest, ¬ occurrence p adv s pre m rest.
Proof. intros H. pose proof (search_spec p adv s) as Hs. by rewrite H in Hs. Qed.

(** What is left after a match is shorter, by at least one character
    once the match is not empty or had to advance. *)
Lemma leftmost_rest_length p adv s pre m rest :
  leftmost p adv s pre m rest →
  length rest ≤ length s
  ∧ (m ≠ [] → length rest < length s)
  ∧ (adv = true → length rest < length s).
Proof.
  intros [(-> & _ & Hadv) _]. rewrite !length_app. split_and!; [lia| |].
  - destruct m; [done|]. cbn [length]. lia.
  - intros ->. destruct pre; [|cbn [length]; lia].
    destruct m; [|cbn [length]; lia]. by destruct Hadv.
Qed.

(** With every match asked for and fuel enough, the loop replaces each
    leftmost occurrence in turn and stops when none is left. *)
Lemma subx_SubstAll p repl fuel n (adv : bool) s :
  2 * length s + (if adv then 1 else 2) ≤ fuel →
  SubstAll p repl adv s (subx fuel p repl 0 n adv s).
Proof.
  revert n adv s. induction fuel as [|fuel IH]; intros n adv s Hfuel.
  { destruct adv; lia. }
  cbn [subx Nat.eqb negb andb].
  destruct (search p adv s) as [[[pre m] rest]|] eqn:Hsearch.
  - apply search_Some in Hsearch.
    apply SubstAll_step with (m := m) (rest := rest); [done|].
    apply IH. apply leftmost_rest_length in Hsearch as (Hle & Hm & Hadv).
    case_bool_decide as Hnil.
    + destruct adv; [specialize (Hadv eq_refl)|]; lia.
    + specialize (Hm Hnil). destruct adv; lia.
  - apply SubstAll_done. by apply search_None.
Qed.

(** The fuel [sub] hands to the loop is never what ends it. *)
Lemma subx_fuel_enough p repl fuel count n (adv : bool) s :
  2 * length s + (if adv then 1 else 2) ≤ fuel →
  subx (S fuel) p repl count n adv s = subx fuel p repl count n adv s.
Proof.
  revert n adv s. induction fuel as [|fuel IH]; intros n adv s Hfuel.
  { destruct adv; lia. }
  change (subx (S (S fuel)) p repl count n adv s) with
    (if negb (count =? 0) && (count <=? n) then s
     else match search p adv s with
          | None => s
          | Some (pre, m, rest) =>
              pre ++ repl ++ subx (S fuel) p repl count (S n) (bool_decide (m = [])) rest
          end).
  cbn [subx]. destruct (negb (count =? 0) && (count <=? n)); [done|].
  destruct (search p adv s) as [[[pre m] rest]|] eqn:Hsearch; [|done].
  do 2 f_equal. apply IH.
  apply search_Some, leftmost_rest_length in Hsearch as (Hle & Hm & Hadv).
  case_bool_decide as Hnil.
  - destruct adv; [specialize (Hadv eq_refl)|]; lia.
  - specialize (Hm Hnil). destruct adv; lia.
Qed.


(** Without an occurrence the loop returns its input. *)
Lemma subx_no_match p repl fuel count n s :
  search p false s = None → subx fuel p repl count n false s = s.
Proof.
  intros Hnone. destruct fuel as [|fuel]; [done|]. cbn [subx].
  rewrite Hnone. by destruct (negb (count =? 0) && (count <=? n)).
Qed.

Lemma sub_unfold pattern repl text count p t :
  compile pattern = Some p →
  compile_template repl = Some t →
  sub pattern repl text count =
  Some (string_of_list_ascii
          (subx (subx_fuel (list_ascii_of_string text)) p t count 0 false
                (list_ascii_of_string text))).
Proof. intros Hp Ht. unfold sub. by rewrite Hp, Ht. Qed.

Lemma sub_Some pattern repl text count out :
  sub pattern repl text count = Some out →
  ∃ p t, compile pattern = Some p ∧ compile_template repl = Some t.
Proof.
  unfold sub. destruct (compile pattern) as [p|]; [|done].
  destruct (compile_template repl) as [t|]; [|done]. eauto.
Qed.

(** [re.sub] with the default count substitutes every occurrence. *)
Lemma sub_SubstAll pattern repl text p t :
  compile pattern = Some p →
  compile_template repl = Some t →
  ∃ out, sub pattern repl text 0 = Some out
         ∧ SubstAll p t false (list_ascii_of_string text) (list_ascii_of_string out).
Proof.
  intros Hp Ht. eexists. split; [by apply sub_unfold|].
  rewrite list_ascii_of_string_of_list_ascii.
  apply subx_SubstAll. unfold subx_fuel. lia.
Qed.

Lemma sub_no_match pattern repl text count p t :
  compile pattern = Some p →
  compile_template repl = Some t →
  search p false (list_ascii_of_string text) = None →
  sub pattern repl text count = Some text.
Proof.
  intros Hp Ht Hnone. rewrite (sub_unfold _ _ _ _ _ _ Hp Ht).
  by rewrite subx_no_match, string_of_list_ascii_of_string.
Qed.

Lemma matches_nonempty p m : p ≠ [] → matches p m → m ≠ [].
Proof. intros Hp Hm ->. apply matches_length in Hm. by destruct p. Qed.

(** What a substitution carries over from the original text, the pieces
    between the replacements, holds no occurrence of the pattern. *)
Lemma SubstAll_pieces p repl adv s out :
  p ≠ [] →
  SubstAll p repl adv s out →
  ∃ pieces, pieces ≠ [] ∧ out = intercalate repl pieces ∧ Forall (free_of p) pieces.
Proof.
  intros Hp H. induction H as [adv s Hnone|adv s pre m rest out Hleft _ IH].
  - exists [s]. split_and!; [done..|]. constructor; [|constructor].
    intros pre m rest (Hs & Hm & _). apply (Hnone pre m rest).
    split_and!; [done..|]. intros (_ & _ & ->). by eapply matches_nonempty.
  - destruct IH as (pieces & Hne & -> & Hfree).
    exists (pre :: pieces). split_and!; [done|by destruct pieces|].
    constructor; [|done].
    intros a m' b (Hpre & Hm' & _).
    destruct Hleft as [(Hs & _) Hmin].
    assert (length pre ≤ length a) as Hle.
    { apply (Hmin a m' (b ++ m ++ rest)). split_and!; [|done|].
      - rewrite Hs, Hpre. by rewrite <- !(assoc_L (++)).
      - intros (_ & _ & ->). by eapply matches_nonempty. }
    apply (matches_nonempty _ _ Hp) in Hm'.
    rewrite Hpre, !length_app in Hle. destruct m'; [done|]. cbn [length] in Hle. lia.
Qed.

(** A text found in [g ++ t ++ r] lies in [g], or in [r], or shares a
    character with [t]. *)
Lemma occurrence_across {A} (g t r pre m rest : list A) :
  t ≠ [] → m ≠ [] →
  g ++ t ++ r = pre ++ m ++ rest →
  (∃ post, g = pre ++ m ++ post)
  ∨ (∃ i j c, m !! i = Some c ∧ t !! j = Some c)
  ∨ (∃ pre', r = pre' ++ m ++ rest).
Proof.
  intros Ht Hm Heq.
  destruct (decide (length pre + length m ≤ length g)) as [Hin|Hout].
  - left. exists (drop (length pre + length m) g).
    rewrite (assoc_L (++) pre m rest) in Heq. rewrite (assoc_L (++)).
    rewrite <- (take_drop (length pre + length m) g) at 1. f_equal.
    apply (f_equal (take (length pre + length m))) in Heq.
    rewrite take_app_le in Heq by done.
    rewrite (take_app_length' (pre ++ m)) in Heq; [done|]. by rewrite length_app.
  - destruct (decide (length g + length t ≤ length pre)) as [Hafter|Hov].
    + right. right. exists (drop (length g + length t) pre).
      apply (f_equal (drop (length g + length t))) in Heq.
      rewrite (assoc_L (++) g t r) in Heq. rewrite (drop_app_length' (g ++ t)) in Heq
        by (by rewrite length_app).
      rewrite Heq. by rewrite drop_app_le.
    + right. left.
      set (k := max (length pre) (length g)).
      assert (k < length pre + length m) by (destruct t, m; cbn [length] in *; try done; lia).
      assert (k < length g + length t) by (destruct t, m; cbn [length] in *; try done; lia).
      assert (is_Some (m !! (k - length pre))) as [c Hc].
      { apply lookup_lt_is_Some. lia. }
      exists (k - length pre), (k - length g), c. split; [done|].
      apply (f_equal (λ l, l !! k)) in Heq.
      rewrite lookup_app_r, lookup_app_l in Heq by lia.
      rewrite Heq. rewrite lookup_app_r, lookup_app_l by lia. done.
Qed.

(** Pieces free of the pattern, joined by a text the pattern cannot
    touch, are free of it. *)
Lemma intercalate_free p t pieces :
  p ≠ [] → t ≠ [] → unmatched_by p t →
  Forall (free_of p) pieces → free_of p (intercalate t pieces).
Proof.
  intros Hp Ht Hdis Hfree.
  induction Hfree as [|g gs Hg Hgs IH].
  - intros pre m rest (Hs & Hm & _). apply (matches_nonempty _ _ Hp) in Hm.
    destruct pre, m; done.
  - destruct gs as [|g' gs']; [done|].
    change (intercalate t (g :: g' :: gs')) with (g ++ t ++ intercalate t (g' :: gs')).
    intros pre m rest (Hs & Hm & _).
    pose proof (matches_nonempty _ _ Hp Hm) as Hne.
    destruct (occurrence_across _ _ _ _ _ _ Ht Hne Hs)
      as [[post ->]|[(i & j & c & Hi & Hj)|[pre' Hr]]].
    + apply (Hg pre m post). by split_and!; [..|intros (? & _)].
    + destruct (Forall2_lookup_r _ _ _ _ _ Hm Hi) as (a & Ha & Hac).
      rewrite (Hdis a c) in Hac; [done|..]; by eapply list_elem_of_lookup_2.
    + apply (IH pre' m rest). by split_and!; [..|intros (? & _)].
Qed.

Lemma free_search_None p s : free_of p s → search p false s = None.
Proof.
  intros Hfree. destruct (search p false s) as [[[pre m] rest]|] eqn:Hs; [|done].
  apply search_Some in Hs as [Hocc _]. by apply Hfree in Hocc.
Qed.

(** Substituting twice is substituting once when the replacement is not
    empty and the pattern accepts none of its characters. *)
Lemma sub_idempotent_when_unmatched pattern repl text out p t :
  compile pattern = Some p →
  compile_template repl = Some t →
  p ≠ [] → t ≠ [] → unmatched_by p t →
  sub pattern repl text 0 = Some out →
  sub pattern repl out 0 = Some out.
Proof.
  intros Hp Ht Hpne Htne Hdis Hsub.
  destruct (sub_SubstAll pattern repl text p t Hp Ht) as (out' & Hsub' & Hall).
  rewrite Hsub in Hsub'. injection Hsub' as <-.
  apply (sub_no_match _ _ _ _ p t); [done..|].
  apply free_search_None.
  destruct (SubstAll_pieces _ _ _ _ _ Hpne Hall) as (pieces & _ & -> & Hfree).
  by apply intercalate_free.
Qed.

(** A substitution puts no carriage return into a text that has none,
    unless the replacement holds one. *)
Lemma subx_no_cr fuel p repl count n adv s :
  no_cr repl = true → no_cr s = true →
  no_cr (subx fuel p repl count n adv s) = true.
Proof.
  intros Hrepl. revert n adv s. induction fuel as [|fuel IH]; intros n adv s Hs; [done|].
  cbn [subx]. destruct (negb (count =? 0) && (count <=? n)); [done|].
  destruct (search p adv s) as [[[pre m] rest]|] eqn:Hsearch; [|done].
  apply search_Some in Hsearch as [(-> & _ & _) _].
  apply no_cr_app in Hs as [Hpre [_ Hrest]%no_cr_app].
  apply no_cr_app. split; [done|]. apply no_cr_app. split; [done|]. by apply IH.
Qed.

Lemma sub_no_cr pattern repl text count out t :
  compile_template repl = Some t →
  no_cr t = true →
  no_cr (list_ascii_of_string text) = true →
  sub pattern repl text count = Some out →
  no_cr (list_ascii_of_string out) = true.
Proof.
  intros Ht Hrepl Htext Hsub.
  destruct (sub_Some _ _ _ _ _ Hsub) as (p & t' & Hp & Ht').
  rewrite Ht in Ht'. injection Ht' as <-.
  rewrite (sub_unfold _ _ _ _ _ _ Hp Ht) in Hsub. injection Hsub as <-.
  rewrite list_ascii_of_string_of_list_ascii. by apply subx_no_cr.
Qed.

End ReFacts.

(** ** The fragment engine *)

Lemma re_sub_fragment_agrees : agrees_with_fragment re_sub_fragment.
Proof. intros pattern repl text out H. unfold re_sub_fragment. by rewrite H. Qed.

(** A pattern of the fragment that occurs nowhere leaves the text as it
    is, whatever engine agrees with the fragment. *)
Lemma no_occurrence_leaves_text re_sub pattern repl text p t :
  agrees_with_fragment re_sub →
  Re.compile pattern = Some p →
  Re.compile_template repl = Some t →
  Re.search p false (list_ascii_of_string text) = None →
  re_sub pattern repl text = inr text.
Proof. intros Hag Hp Ht Hnone. by apply Hag, (ReFacts.sub_no_match _ _ _ _ p t). Qed.

(** Line ends and the replace change.  A pattern with a newline finds
    the line end of a DOS file, and the file is rewritten without its
    carriage return; a pattern with a carriage return finds nothing
    there; a carriage return written by a replacement is read back as a
    newline, so that the change applies a second time. *)
Example replace_reads_in_text_mode :
  apply_changes re_sub_fragment (change_text "a\nb" "x")
    (world_with_text a_crlf_b)
  = (inr PyNone, world_with_text "x")
  ∧ apply_changes re_sub_fragment (change_text "\r" "x") (world_with_text a_crlf_b)
    = (inl (PatternNotMatched "\r" "text.txt"), world_with_text a_crlf_b)
  ∧ apply_changes re_sub_fragment (change_text "1\n" "1\r")
      (world_with_text ("1" +:+ nl))
    = (inr PyNone, world_with_text ("1" +:+ String CR ""))
  ∧ apply_changes re_sub_fragment (change_text "1\n" "1\r")
      (world_with_text ("1" +:+ String CR ""))
    = (inr PyNone, world_with_text ("1" +:+ String CR "")).
Proof. split_and!; by vm_compute. Qed.

(** The default count reaches every occurrence, a count of one only the
    first. *)
Example sub_foo_foo :
  Re.sub "foo" "bar" "foo foo" 0 = Some "bar bar"
  ∧ Re.sub "foo" "bar" "foo foo" 1 = Some "bar foo".
Proof. split; reflexivity. Qed.

(** ** The pipeline, claim by claim *)

(** [C1] [execute] applies the changes in list order, then documents,
    then commits.  When the changes [pre] have been applied and the next
    change [c] raises, [execute] ends with that exception in the world
    the changes [pre] produced: their writes stay, the failing change has
    written nothing, no file outside the targets of [pre] differs from
    the start (so neither the later targets nor, unless targeted, the
    changelog), and the repository is as it was.  Had the list ended with
    [pre], the document and commit phases would have run from that same
    world. *)
Theorem execute_stops_at_first_failing_change
    re_sub pre c post w w1 e w2 :
  for_each (apply_changes re_sub) pre w = (inr tt, w1) →
  apply_changes re_sub c w1 = (inl e, w2) →
  Refactorizor.execute (PythonJavaScriptRefactorizor.new re_sub pre) w
    = (update_codebase_md pre ≫= λ _, commit_changes pre ≫= λ _, mret PyNone) w1
  ∧ Refactorizor.execute
      (PythonJavaScriptRefactorizor.new re_sub (pre ++ c :: post))
      w = (inl e, w1)
  ∧ w2 = w1
  ∧ repo w1 = repo w
  ∧ ∀ path, (∀ c', c' ∈ pre → c' !! "target_file" ≠ Some path) →
            fs w1 !! path = fs w !! path.
Proof.
  intros Hpre Hc.
  pose proof (apply_changes_failure_writes_nothing _ _ _ _ _ Hc) as ->.
  pose proof (apply_phase_frame _ _ _ _ _ Hpre) as [Hrepo Hfs].
  split_and!; [|by eapply execute_stops|done..].
  rewrite execute_unfold. by rewrite run_bind, Hpre.
Qed.

Lemma execute_stops_at_first_failing_change_witness :
  Refactorizor.execute
      (PythonJavaScriptRefactorizor.new re_sub_fragment [change_hello])
      sample_world
    = (update_codebase_md [change_hello]
         ≫= λ _, commit_changes [change_hello] ≫= λ _, mret PyNone) sample_world_hello
  ∧ Refactorizor.execute
      (PythonJavaScriptRefactorizor.new re_sub_fragment
         ([change_hello] ++ change_missing :: [change_foo]))
      sample_world
    = (inl (FileNotFound "missing.txt"), sample_world_hello)
  ∧ sample_world_hello = sample_world_hello
  ∧ repo sample_world_hello = repo sample_world
  ∧ ∀ path, (∀ c', c' ∈ [change_hello] → c' !! "target_file" ≠ Some path) →
            fs sample_world_hello !! path = fs sample_world !! path.
Proof.
  apply (execute_stops_at_first_failing_change re_sub_fragment
           [change_hello] change_missing [change_foo]
           sample_world sample_world_hello
           (FileNotFound "missing.txt") sample_world_hello).
  - vm_compute. reflexivity.
  - vm_compute. reflexivity.
Defined.

(** [C2] A replace change whose substitution returns the text read from
    the file unchanged (the pattern occurs nowhere in that text) is
    rejected: applying it raises PatternNotMatched, a [ValueError] whose
    message carries the pattern and the file, [execute] ends with that
    error, and the world, the target file included, is as it was before
    the change.  The text is the file as a text-mode handle reads it,
    every line end a newline; the file itself keeps its characters,
    carriage returns included. *)
Theorem replace_without_effect_is_rejected
    re_sub pre c post w w1 p content pat repl :
  for_each (apply_changes re_sub) pre w = (inr tt, w1) →
  c !! "change_type" = Some "replace" →
  c !! "target_file" = Some p →
  fs w1 !! p = Some content →
  c !! "search_pattern" = Some pat →
  c !! "replacement" = Some repl →
  re_sub pat repl (universal_newlines content) = inr (universal_newlines content) →
  apply_changes re_sub c w1 = (inl (PatternNotMatched pat p), w1)
  ∧ Refactorizor.execute
      (PythonJavaScriptRefactorizor.new re_sub (pre ++ c :: post))
      w = (inl (PatternNotMatched pat p), w1)
  ∧ PatternNotMatched pat p
    = ValueError ("Search pattern '" +:+ pat +:+ "' not found in " +:+ p)
  ∧ fs w1 !! p = Some content.
Proof.
  intros Hpre Hty Hp Hold Hpat Hrepl Hsub.
  assert (apply_changes re_sub c w1 = (inl (PatternNotMatched pat p), w1)) as Hc.
  { rewrite (apply_changes_replace _ _ _ _ _ _ _ Hty Hp Hold Hpat Hrepl), Hsub.
    by rewrite bool_decide_true. }
  split_and!; [done| |done..]. by eapply execute_stops.
Qed.

Lemma replace_without_effect_is_rejected_witness :
  apply_changes re_sub_fragment change_baz dos_world
    = (inl (PatternNotMatched "baz" "two.txt"), dos_world)
  ∧ Refactorizor.execute
      (PythonJavaScriptRefactorizor.new re_sub_fragment ([] ++ change_baz :: [change_foo]))
      dos_world
    = (inl (PatternNotMatched "baz" "two.txt"), dos_world)
  ∧ PatternNotMatched "baz" "two.txt"
    = ValueError ("Search pattern '" +:+ "baz" +:+ "' not found in " +:+ "two.txt")
  ∧ fs dos_world !! "two.txt" = Some foo_crlf_foo.
Proof.
  apply (replace_without_effect_is_rejected re_sub_fragment
           [] change_baz [change_foo] dos_world dos_world
           "two.txt" foo_crlf_foo "baz" "qux").
  - reflexivity.
  - reflexivity.
  - reflexivity.
  - reflexivity.
  - reflexivity.
  - reflexivity.
  - vm_compute. reflexivity.
Defined.

(** The same does not hold of the contents of the file.  In the file
    [a], carriage return, newline, [b] the pattern [a\nb] occurs nowhere,
    and substituting in these contents returns them as they are; but the
    text read is [a], newline, [b]: the change is applied, the file is
    overwritten with [x], and [execute] goes on to the commit. *)
Lemma replace_matches_across_dos_line_end :
  fs dos_text_world !! "text.txt" = Some a_crlf_b
  ∧ Re.compile "a\nb" = Some [Re.Literal "a"; Re.Literal LF; Re.Literal "b"]%char
  ∧ Re.search [Re.Literal "a"; Re.Literal LF; Re.Literal "b"]%char false
      (list_ascii_of_string a_crlf_b) = None
  ∧ Re.sub "a\nb" "x" a_crlf_b 0 = Some a_crlf_b
  ∧ apply_changes re_sub_fragment (change_text "a\nb" "x") dos_text_world
    = (inr PyNone, set_fs <["text.txt" := "x"]> dos_text_world)
  ∧ (Refactorizor.execute
       (PythonJavaScriptRefactorizor.new re_sub_fragment [change_text "a\nb" "x"])
       dos_text_world).1 = inr PyNone
  ∧ fs (Refactorizor.execute
          (PythonJavaScriptRefactorizor.new re_sub_fragment [change_text "a\nb" "x"])
          dos_text_world).2 !! "text.txt" = Some "x"
  ∧ Some "x" ≠ Some a_crlf_b.
Proof. split_and!; by vm_compute. Qed.




(** [C4] An append change on an existing file leaves the old contents
    followed by the change's content, character for character; no other
    file changes and the repository is not touched. *)
Theorem append_concatenates re_sub c w p old content :
  c !! "change_type" = Some "append" →
  c !! "target_file" = Some p →
  fs w !! p = Some old →
  c !! "content" = Some content →
  ∃ w',
    apply_changes re_sub c w = (inr PyNone, w')
    ∧ fs w' !! p = Some (old +:+ content)
    ∧ (∀ path, path ≠ p → fs w' !! path = fs w !! path)
    ∧ repo w' = repo w.
Proof.
  intros Hty Hp Hold Hc. eexists. split; [by eapply apply_changes_append|].
  cbn [fs set_fs repo]. split_and!; [apply lookup_insert_eq| |done].
  intros path Hne. by apply lookup_insert_ne.
Qed.

Lemma append_concatenates_witness :
  ∃ w',
    apply_changes re_sub_fragment change_hello sample_world = (inr PyNone, w')
    ∧ fs w' !! "one.txt" = Some ("" +:+ hello)
    ∧ (∀ path, path ≠ "one.txt" → fs w' !! path = fs sample_world !! path)
    ∧ repo w' = repo sample_world.
Proof.
  apply (append_concatenates re_sub_fragment change_hello sample_world
           "one.txt" "" hello); reflexivity.
Defined.

(** [C5] A run of [execute] that returns has created one commit, whose
    identifier is its position at the end of the history, but hands
    [None] back to the caller, never that identifier. *)
Theorem execute_returns_none re_sub changes w v w' :
  Refactorizor.execute
      (PythonJavaScriptRefactorizor.new re_sub changes)
      w = (inr v, w') →
  v = PyNone
  ∧ ∃ r idx message,
      repo w = Some r
      ∧ repo w' = Some (mkRepo idx (commits r ++ [mkCommit message idx]))
      ∧ (commits r ++ [mkCommit message idx]) !! length (commits r)
        = Some (mkCommit message idx)
      ∧ v ≠ PyCommit (length (commits r)).
Proof.
  rewrite execute_unfold. rewrite run_bind.
  destruct (for_each _ changes w) as [[e|[]] w1] eqn:Happly; [done|].
  apply apply_phase_frame in Happly as [Hrepo1 _].
  rewrite run_bind.
  destruct (update_codebase_md changes w1) as [[e|v1] w2] eqn:Hdoc; [done|].
  apply update_codebase_md_frame in Hdoc as [Hrepo2 _].
  rewrite run_bind.
  destruct (commit_changes changes w2) as [[e|v2] w3] eqn:Hcommit; [done|].
  apply commit_changes_returns in Hcommit as (_ & r & idx & message & Hr & ->).
  rewrite run_ret. intros [= <- <-]. split; [done|].
  exists r, idx, message. split_and!; [congruence|done| |done].
  rewrite lookup_app_r by done. by rewrite Nat.sub_diag.
Qed.

Lemma execute_returns_none_witness :
  PyNone = PyNone
  ∧ ∃ r idx message,
      repo sample_world = Some r
      ∧ repo sample_world_committed
        = Some (mkRepo idx (commits r ++ [mkCommit message idx]))
      ∧ (commits r ++ [mkCommit message idx]) !! length (commits r)
        = Some (mkCommit message idx)
      ∧ PyNone ≠ PyCommit (length (commits r)).
Proof.
  apply (execute_returns_none re_sub_fragment [change_hello; change_foo]
           sample_world PyNone sample_world_committed).
  vm_compute. reflexivity.
Defined.

(** A fully successful run: both files are changed, the changelog is
    written, commit number 0 is created, and the caller receives [None],
    which is not the identifier of that commit. *)
Lemma execute_returns_no_commit_id :
  Refactorizor.execute
      (PythonJavaScriptRefactorizor.new re_sub_fragment
         [change_hello; change_foo])
      sample_world
    = (inr PyNone, sample_world_committed)
  ∧ (commits <$> repo sample_world) = Some []
  ∧ (commits <$> repo sample_world_committed)
    = Some [mkCommit sample_message (fs sample_world_documented)]
  ∧ (inr PyNone : PyExc + PyValue) ≠ inr (PyCommit 0).
Proof. split_and!; [by vm_compute..|discriminate]. Qed.

(** [C6] The commit phase, in a repository, for changes that carry a
    target file and a description, all files being present: the index
    receives the changelog and the target files, each path once with the
    contents its file has (staging the list of paths is staging each
    distinct path once), every other index entry stays, and exactly one
    commit is added, whose message is the preamble followed by one line
    per description in input order. *)
Theorem commit_changes_stages_and_commits changes targets descriptions w r :
  repo w = Some r →
  has_values "target_file" changes targets →
  has_values "description" changes descriptions →
  (∀ p, p ∈ codebase_md_path :: targets → is_Some (fs w !! p)) →
  ∃ idx message,
    commit_changes changes w
      = (inr PyNone,
         mkWorld (fs w) (Some (mkRepo idx (commits r ++ [mkCommit message idx]))))
    ∧ dom idx = dom (index r) ∪ {[codebase_md_path]} ∪ list_to_set targets
    ∧ (∀ p, p ∈ codebase_md_path :: targets → idx !! p = fs w !! p)
    ∧ (∀ p, p ∉ codebase_md_path :: targets → idx !! p = index r !! p)
    ∧ idx = stage (index r)
              (working_tree_entries (fs w) (remove_dups (codebase_md_path :: targets)))
    ∧ message = commit_preamble +:+ nl +:+ String.concat nl descriptions
    ∧ (descriptions ≠ [] → message = commit_preamble +:+ description_lines descriptions).
Proof.
  intros Hr Ht Hd Hall. eexists _, _.
  split; [by eapply commit_changes_commits|].
  split_and!.
  - rewrite stage_dom by done. cbn [list_to_set]. by rewrite (assoc_L (∪)).
  - intros p Hp. rewrite stage_lookup, decide_True by done.
    by destruct (Hall p Hp) as [s ->].
  - intros p Hp. by rewrite stage_lookup, decide_False.
  - by rewrite stage_remove_dups.
  - done.
  - intros Hne. f_equal. destruct descriptions as [|d ds]; [done|].
    apply concat_description_lines.
Qed.

(** Two of the three changes target the same file. *)
Lemma commit_changes_stages_and_commits_witness :
  ∃ idx message,
    commit_changes [change_hello; change_foo; change_baz] sample_world_documented
      = (inr PyNone,
         mkWorld (fs sample_world_documented)
           (Some (mkRepo idx (commits empty_repo ++ [mkCommit message idx]))))
    ∧ dom idx = dom (index empty_repo) ∪ {[codebase_md_path]}
                ∪ list_to_set ["one.txt"; "two.txt"; "two.txt"]
    ∧ (∀ p, p ∈ codebase_md_path :: ["one.txt"; "two.txt"; "two.txt"] →
            idx !! p = fs sample_world_documented !! p)
    ∧ (∀ p, p ∉ codebase_md_path :: ["one.txt"; "two.txt"; "two.txt"] →
            idx !! p = index empty_repo !! p)
    ∧ idx = stage (index empty_repo)
              (working_tree_entries (fs sample_world_documented)
                 (remove_dups (codebase_md_path :: ["one.txt"; "two.txt"; "two.txt"])))
    ∧ message = commit_preamble +:+ nl
                +:+ String.concat nl
                      ["Say hello"; "Rename foo to bar"; "Rename baz to qux"]
    ∧ (["Say hello"; "Rename foo to bar"; "Rename baz to qux"] ≠ [] →
       message = commit_preamble
                 +:+ description_lines
                       ["Say hello"; "Rename foo to bar"; "Rename baz to qux"]).
Proof.
  apply (commit_changes_stages_and_commits [change_hello; change_foo; change_baz]
           ["one.txt"; "two.txt"; "two.txt"]
           ["Say hello"; "Rename foo to bar"; "Rename baz to qux"]
           sample_world_documented empty_repo).
  - reflexivity.
  - repeat constructor.
  - repeat constructor.
  - intros p Hp.
    repeat (apply elem_of_cons in Hp as [->|Hp]; [by eexists|]).
    by apply elem_of_nil in Hp.
Defined.

(** [C7] The document phase, for changes that all carry a description:
    the changelog is opened for appending, created when absent, and
    receives the header "\n\n## Recent Changes\n\n" followed by one line
    "- description\n" per change, in input order; what the changelog held
    before stays in front, and nothing else is written. *)
Theorem update_codebase_md_appends_section changes descriptions w :
  has_values "description" changes descriptions →
  ∃ w',
    update_codebase_md changes w = (inr PyNone, w')
    ∧ fs w' !! codebase_md_path
      = Some (default "" (fs w !! codebase_md_path)
              +:+ recent_changes_header +:+ bullet_lines descriptions)
    ∧ recent_changes_header = nl +:+ nl +:+ "## Recent Changes" +:+ nl +:+ nl
    ∧ length descriptions = length changes
    ∧ (∀ path, path ≠ codebase_md_path → fs w' !! path = fs w !! path)
    ∧ repo w' = repo w.
Proof.
  intros Hd. eexists. split; [by apply update_codebase_md_writes|].
  cbn [fs set_fs repo]. split_and!; [apply lookup_insert_eq|done| |..|done].
  - symmetry. by eapply Forall2_length.
  - intros path Hne. by apply lookup_insert_ne.
Qed.

Lemma update_codebase_md_appends_section_witness :
  ∃ w',
    update_codebase_md [change_hello; change_foo] sample_world = (inr PyNone, w')
    ∧ fs w' !! codebase_md_path
      = Some (default "" (fs sample_world !! codebase_md_path)
              +:+ recent_changes_header
              +:+ bullet_lines ["Say hello"; "Rename foo to bar"])
    ∧ recent_changes_header = nl +:+ nl +:+ "## Recent Changes" +:+ nl +:+ nl
    ∧ length ["Say hello"; "Rename foo to bar"] = length [change_hello; change_foo]
    ∧ (∀ path, path ≠ codebase_md_path → fs w' !! path = fs sample_world !! path)
    ∧ repo w' = repo sample_world.
Proof.
  apply (update_codebase_md_appends_section [change_hello; change_foo]
           ["Say hello"; "Rename foo to bar"] sample_world).
  repeat constructor.
Defined.

(** [C8] A change whose type is neither "append" nor "replace", on a
    target file that exists, raises UnknownChangeType and leaves every
    file and the repository as they were. *)
Theorem unknown_change_type_is_rejected re_sub c w ty p :
  c !! "change_type" = Some ty →
  ty ≠ "append" →
  ty ≠ "replace" →
  c !! "target_file" = Some p →
  is_Some (fs w !! p) →
  apply_changes re_sub c w = (inl (UnknownChangeType ty), w)
  ∧ UnknownChangeType ty = ValueError ("Unknown change_type: " +:+ ty).
Proof. intros. split; [by eapply apply_changes_unknown|done]. Qed.

Lemma unknown_change_type_is_rejected_witness :
  apply_changes re_sub_fragment change_delete sample_world
    = (inl (UnknownChangeType "delete"), sample_world)
  ∧ UnknownChangeType "delete" = ValueError ("Unknown change_type: " +:+ "delete").
Proof.
  apply (unknown_change_type_is_rejected re_sub_fragment change_delete sample_world
           "delete" "two.txt").
  - reflexivity.
  - discriminate.
  - discriminate.
  - reflexivity.
  - exists "foo foo". reflexivity.
Defined.




(** [C10] The empty change list is no no-op: [execute] still appends the
    header (and no bullet line) to the changelog, creating it when
    absent; then, without a repository, it raises in that world, and in
    a repository it stages the changelog and adds one commit whose
    message is the preamble and a newline. *)
Theorem execute_empty_changeset re_sub w :
  Refactorizor.execute (PythonJavaScriptRefactorizor.new re_sub []) w =
  match repo w with
  | None =>
      (inl InvalidGitRepositoryError,
       set_fs <[codebase_md_path := changelog_with_header w]> w)
  | Some r =>
      (inr PyNone,
       mkWorld (<[codebase_md_path := changelog_with_header w]> (fs w))
         (Some (mkRepo (<[codebase_md_path := changelog_with_header w]> (index r))
            (commits r ++
               [mkCommit (commit_preamble +:+ nl)
                         (<[codebase_md_path := changelog_with_header w]> (index r))]))))
  end.
Proof.
  rewrite execute_unfold. cbn [for_each]. rewrite run_bind, run_ret, run_bind.
  rewrite (update_codebase_md_writes [] [] w) by constructor.
  cbn [bullet_lines foldr]. rewrite string_app_nil_r.
  fold (changelog_with_header w). rewrite run_bind.
  destruct (repo w) as [r|] eqn:Hr.
  - erewrite (commit_changes_commits [] [] []); [|by cbn|constructor..|].
    + rewrite run_ret. unfold stage, working_tree_entries.
      cbn [fmap list_fmap foldl fst snd fs set_fs String.concat].
      by rewrite lookup_insert_eq, string_app_nil_r.
    + intros p ->%list_elem_of_singleton. cbn [fs set_fs].
      rewrite lookup_insert_eq. eauto.
  - unfold commit_changes. rewrite run_bind. unfold git_Repo. cbn [repo set_fs].
    by rewrite Hr.
Qed.

(** ** Further properties of the apply step *)

(** What one change can do to the world: nothing, or rewrite its own
    target file, which was there before. *)
Lemma apply_changes_cases re_sub c w r w' :
  apply_changes re_sub c w = (r, w') →
  w' = w
  ∨ ∃ p old new,
      c !! "target_file" = Some p ∧ fs w !! p = Some old
      ∧ w' = set_fs <[p := new]> w ∧ r = inr PyNone.
Proof.
  unfold apply_changes. rewrite run_bind, run_getitem.
  destruct (c !! "change_type") as [ty|] eqn:Hty; [|intros [= _ <-]; by left].
  rewrite run_bind, run_getitem.
  destruct (c !! "target_file") as [p|] eqn:Hp; [|intros [= _ <-]; by left].
  rewrite run_bind. destruct (fs w !! p) as [old|] eqn:Hold.
  2:{ rewrite (run_path_exists_None _ _ Hold). intros [= _ <-]; by left. }
  rewrite (run_path_exists_Some _ _ _ Hold). cbn [negb].
  case_bool_decide as Ha.
  - rewrite run_bind. unfold open_append at 1. rewrite Hold.
    rewrite run_bind, run_getitem.
    destruct (c !! "content") as [content|]; [|intros [= _ <-]; by left].
    rewrite run_bind. unfold write_append. rewrite Hold.
    intros [= <- <-]. right. by eexists _, _, _.
  - case_bool_decide as Hr; [|intros [= _ <-]; by left].
    rewrite run_bind. unfold read_file at 1. rewrite Hold.
    rewrite run_bind, run_getitem.
    destruct (c !! "search_pattern") as [pat|]; [|intros [= _ <-]; by left].
    rewrite run_bind, run_getitem.
    destruct (c !! "replacement") as [repl|]; [|intros [= _ <-]; by left].
    rewrite run_bind.
    destruct (re_sub pat repl _) as [e|updated]; cbn [lift];
      [intros [= _ <-]; by left|].
    rewrite run_ret. case_bool_decide; [intros [= _ <-]; by left|].
    rewrite run_bind. unfold write_file.
    intros [= <- <-]. right. by eexists _, _, _.
Qed.

Lemma dom_insert_present (files : gmap string string) p old new :
  files !! p = Some old → dom (<[p := new]> files) = dom files.
Proof.
  intros Hp. rewrite dom_insert_L. apply subseteq_union_1_L.
  apply singleton_subseteq_l, elem_of_dom. eauto.
Qed.

Lemma apply_changes_dom re_sub c w r w' :
  apply_changes re_sub c w = (r, w') → dom (fs w') = dom (fs w).
Proof.
  intros [->|(p & old & new & _ & Hold & -> & _)]%apply_changes_cases; [done|].
  cbn [fs set_fs]. by eapply dom_insert_present.
Qed.

(** [X1] A change without a "change_type" key raises
    [KeyError("change_type")] before anything else is looked at: the
    other keys, the target file and the engine play no part, and nothing
    is written. *)
Theorem apply_changes_without_change_type re_sub c w :
  c !! "change_type" = None →
  apply_changes re_sub c w = (inl (KeyError "change_type"), w).
Proof. intros Hty. unfold apply_changes. by rewrite run_bind, run_getitem, Hty. Qed.

Lemma apply_changes_without_change_type_witness :
  apply_changes re_sub_fragment (dict [("target_file", "one.txt"); ("content", "x")])
    sample_world
  = (inl (KeyError "change_type"), sample_world).
Proof.
  apply (apply_changes_without_change_type re_sub_fragment
           (dict [("target_file", "one.txt"); ("content", "x")]) sample_world).
  reflexivity.
Defined.

(** [X2] A change with a "change_type" but without a "target_file" key
    raises [KeyError("target_file")], whatever the change type is, a
    known one or not, and nothing is written. *)
Theorem apply_changes_without_target_file re_sub c w ty :
  c !! "change_type" = Some ty →
  c !! "target_file" = None →
  apply_changes re_sub c w = (inl (KeyError "target_file"), w).
Proof.
  intros Hty Hp. unfold apply_changes.
  by rewrite run_bind, run_getitem, Hty, run_bind, run_getitem, Hp.
Qed.

Lemma apply_changes_without_target_file_witness :
  apply_changes re_sub_fragment (dict [("change_type", "delete")]) sample_world
  = (inl (KeyError "target_file"), sample_world).
Proof.
  apply (apply_changes_without_target_file re_sub_fragment
           (dict [("change_type", "delete")]) sample_world "delete");
    reflexivity.
Defined.

(** [X3] The existence of the target file is checked before the change
    type is: on a missing file every change, of a known type or not and
    with or without its other keys, raises the [ValueError] "File ... not
    found"; the file is not created, not even by an append, and nothing
    is written. *)
Theorem missing_file_is_reported_before_the_type re_sub c w ty p :
  c !! "change_type" = Some ty →
  c !! "target_file" = Some p →
  fs w !! p = None →
  apply_changes re_sub c w = (inl (ValueError ("File " +:+ p +:+ " not found")), w)
  ∧ fs (apply_changes re_sub c w).2 !! p = None.
Proof.
  intros Hty Hp Hno.
  rewrite (apply_changes_missing_file _ _ _ _ _ Hty Hp Hno). by split.
Qed.

Lemma missing_file_is_reported_before_the_type_witness :
  apply_changes re_sub_fragment
      (dict [("change_type", "delete"); ("target_file", "missing.txt")]) sample_world
    = (inl (ValueError ("File " +:+ "missing.txt" +:+ " not found")), sample_world)
  ∧ fs (apply_changes re_sub_fragment
          (dict [("change_type", "delete"); ("target_file", "missing.txt")])
          sample_world).2 !! "missing.txt" = None.
Proof.
  apply (missing_file_is_reported_before_the_type re_sub_fragment
           (dict [("change_type", "delete"); ("target_file", "missing.txt")])
           sample_world "delete" "missing.txt"); reflexivity.
Defined.

(** [X4] An append change without a "content" key, on a file that exists,
    raises [KeyError("content")]: the file has been opened for appending
    by then, but nothing is written to it. *)
Theorem append_without_content re_sub c w p :
  c !! "change_type" = Some "append" →
  c !! "target_file" = Some p →
  is_Some (fs w !! p) →
  c !! "content" = None →
  apply_changes re_sub c w = (inl (KeyError "content"), w).
Proof.
  intros Hty Hp [old Hold] Hc. unfold apply_changes.
  rewrite run_bind, run_getitem, Hty, run_bind, run_getitem, Hp.
  rewrite run_bind, (run_path_exists_Some _ _ _ Hold). cbn [negb].
  rewrite bool_decide_true by done.
  rewrite run_bind. unfold open_append at 1. rewrite Hold.
  by rewrite run_bind, run_getitem, Hc.
Qed.

Lemma append_without_content_witness :
  apply_changes re_sub_fragment
    (dict [("change_type", "append"); ("target_file", "one.txt")]) sample_world
  = (inl (KeyError "content"), sample_world).
Proof.
  apply (append_without_content re_sub_fragment
           (dict [("change_type", "append"); ("target_file", "one.txt")])
           sample_world "one.txt").
  - reflexivity.
  - reflexivity.
  - exists "". reflexivity.
  - reflexivity.
Defined.

(** [X5] A replace change on a file that exists needs both its keys: the
    pattern is looked up first, so without "search_pattern" the error is
    [KeyError("search_pattern")] whether or not there is a replacement,
    and with a pattern but no "replacement" it is
    [KeyError("replacement")].  The engine is not called and nothing is
    written. *)
Theorem replace_without_pattern_or_replacement re_sub c w p :
  c !! "change_type" = Some "replace" →
  c !! "target_file" = Some p →
  is_Some (fs w !! p) →
  c !! "search_pattern" = None ∨ c !! "replacement" = None →
  apply_changes re_sub c w
  = (inl (KeyError match c !! "search_pattern" with
                    | Some _ => "replacement"
                    | None => "search_pattern"
                    end),
     w).
Proof.
  intros Hty Hp [old Hold] Hmissing. unfold apply_changes.
  rewrite run_bind, run_getitem, Hty, run_bind, run_getitem, Hp.
  rewrite run_bind, (run_path_exists_Some _ _ _ Hold). cbn [negb].
  rewrite bool_decide_false by done. rewrite bool_decide_true by done.
  rewrite run_bind. unfold read_file at 1. rewrite Hold.
  rewrite run_bind, run_getitem.
  destruct (c !! "search_pattern") as [pat|]; [|done].
  destruct Hmissing as [?|Hrepl]; [done|].
  by rewrite run_bind, run_getitem, Hrepl.
Qed.

Lemma replace_without_pattern_or_replacement_witness :
  apply_changes re_sub_fragment
    (dict [("change_type", "replace"); ("target_file", "two.txt");
           ("search_pattern", "foo")]) sample_world
  = (inl (KeyError
            match dict [("change_type", "replace"); ("target_file", "two.txt");
                        ("search_pattern", "foo")] !! "search_pattern" with
            | Some _ => "replacement"
            | None => "search_pattern"
            end),
     sample_world).
Proof.
  apply (replace_without_pattern_or_replacement re_sub_fragment
           (dict [("change_type", "replace"); ("target_file", "two.txt");
                  ("search_pattern", "foo")]) sample_world "two.txt").
  - reflexivity.
  - reflexivity.
  - exists "foo foo". reflexivity.
  - right. reflexivity.
Defined.

(** [X6] An exception of the regular-expression engine (an invalid
    pattern or template), raised on the text read from the file, leaves a
    replace change through [apply_changes] as it is, and the file is not
    written. *)
Theorem engine_error_propagates re_sub c w p content pat repl e :
  c !! "change_type" = Some "replace" →
  c !! "target_file" = Some p →
  fs w !! p = Some content →
  c !! "search_pattern" = Some pat →
  c !! "replacement" = Some repl →
  re_sub pat repl (universal_newlines content) = inl e →
  apply_changes re_sub c w = (inl e, w).
Proof.
  intros Hty Hp Hold Hpat Hrepl He.
  by rewrite (apply_changes_replace _ _ _ _ _ _ _ Hty Hp Hold Hpat Hrepl), He.
Qed.

Lemma engine_error_propagates_witness :
  apply_changes re_sub_fragment
    (dict [("change_type", "replace"); ("target_file", "two.txt");
           ("search_pattern", "foo("); ("replacement", "bar")]) sample_world
  = (inl ReError, sample_world).
Proof.
  apply (engine_error_propagates re_sub_fragment
           (dict [("change_type", "replace"); ("target_file", "two.txt");
                  ("search_pattern", "foo("); ("replacement", "bar")])
           sample_world "two.txt" "foo foo" "foo(" "bar" ReError); reflexivity.
Defined.

(** [X7] With any engine: when [re.sub] returns a text that differs from
    the text read from the file (its contents with every line end turned
    into a newline), the replace change returns [None] and the file holds
    exactly the text returned; every other file and the repository are as
    before.  When it returns the text read, the change is rejected and
    the file keeps its contents, carriage returns included. *)
Theorem replace_writes_what_the_engine_returns
    re_sub c w p content pat repl updated :
  c !! "change_type" = Some "replace" →
  c !! "target_file" = Some p →
  fs w !! p = Some content →
  c !! "search_pattern" = Some pat →
  c !! "replacement" = Some repl →
  re_sub pat repl (universal_newlines content) = inr updated →
  if bool_decide (updated = universal_newlines content) then
    apply_changes re_sub c w = (inl (PatternNotMatched pat p), w)
  else
    ∃ w',
      apply_changes re_sub c w = (inr PyNone, w')
      ∧ fs w' !! p = Some updated
      ∧ (∀ path, path ≠ p → fs w' !! path = fs w !! path)
      ∧ repo w' = repo w.
Proof.
  intros Hty Hp Hold Hpat Hrepl Hsub.
  rewrite (apply_changes_replace _ _ _ _ _ _ _ Hty Hp Hold Hpat Hrepl), Hsub.
  case_bool_decide as Hsame; [done|]. eexists. split; [done|].
  cbn [fs set_fs repo]. split_and!; [apply lookup_insert_eq| |done].
  intros path Hpath. by apply lookup_insert_ne.
Qed.

Lemma replace_writes_what_the_engine_returns_witness :
  if bool_decide (bar_lf_bar = universal_newlines foo_crlf_foo) then
    apply_changes re_sub_fragment change_foo dos_world
    = (inl (PatternNotMatched "foo" "two.txt"), dos_world)
  else
    ∃ w',
      apply_changes re_sub_fragment change_foo dos_world = (inr PyNone, w')
      ∧ fs w' !! "two.txt" = Some bar_lf_bar
      ∧ (∀ path, path ≠ "two.txt" → fs w' !! path = fs dos_world !! path)
      ∧ repo w' = repo dos_world.
Proof.
  apply (replace_writes_what_the_engine_returns re_sub_fragment change_foo
           dos_world "two.txt" foo_crlf_foo "foo" "bar" bar_lf_bar);
    reflexivity.
Defined.

(** [X8] Whatever a change is and however applying it ends, the call
    leaves the repository alone, neither creates nor deletes a file, and
    changes no file but the change's own target. *)
Theorem apply_changes_touches_its_target_only re_sub c w :
  repo (apply_changes re_sub c w).2 = repo w
  ∧ dom (fs (apply_changes re_sub c w).2) = dom (fs w)
  ∧ ∀ path, c !! "target_file" ≠ Some path →
            fs (apply_changes re_sub c w).2 !! path = fs w !! path.
Proof.
  destruct (apply_changes re_sub c w) as [r w'] eqn:Hc. cbn [snd].
  pose proof (apply_changes_frame _ _ _ _ _ Hc) as [Hrepo Hfs].
  split_and!; [done|by eapply apply_changes_dom|done].
Qed.

(** [X10] An append of the empty text succeeds and changes nothing, where
    a replace without effect is an error. *)
Theorem append_of_nothing_succeeds re_sub c w p :
  c !! "change_type" = Some "append" →
  c !! "target_file" = Some p →
  is_Some (fs w !! p) →
  c !! "content" = Some "" →
  apply_changes re_sub c w = (inr PyNone, w).
Proof.
  intros Hty Hp [old Hold] Hc.
  rewrite (apply_changes_append _ _ _ _ _ _ Hty Hp Hold Hc).
  unfold set_fs. rewrite string_app_nil_r, insert_id by done.
  by rewrite set_fs_id.
Qed.

Lemma append_of_nothing_succeeds_witness :
  apply_changes re_sub_fragment
    (dict [("change_type", "append"); ("target_file", "two.txt"); ("content", "")])
    sample_world
  = (inr PyNone, sample_world).
Proof.
  apply (append_of_nothing_succeeds re_sub_fragment
           (dict [("change_type", "append"); ("target_file", "two.txt");
                  ("content", "")]) sample_world "two.txt").
  - reflexivity.
  - reflexivity.
  - exists "foo foo". reflexivity.
  - reflexivity.
Defined.

(** ** Further properties of the apply phase *)

Lemma appendable_insert files p old new c :
  files !! p = Some old → appendable files c → appendable (<[p := new]> files) c.
Proof.
  intros Hp (Hty & Hc & q & Hq & Hfile). split_and!; [done..|].
  exists q. split; [done|]. destruct (decide (p = q)) as [->|Hne].
  - rewrite lookup_insert_eq. eauto.
  - by rewrite lookup_insert_ne.
Qed.

(** [X11] A list of append changes, each with its content and with a
    target that exists at the start, is applied to the end without
    error; every file then holds its old contents followed by the
    contents of the changes that target it, in list order (later changes
    write behind earlier ones), no file appears or disappears, and the
    repository is not touched. *)
Theorem appends_accumulate_in_order re_sub changes w :
  Forall (appendable (fs w)) changes →
  ∃ w',
    for_each (apply_changes re_sub) changes w = (inr tt, w')
    ∧ (∀ p, fs w' !! p = (λ old, old +:+ appended_text p changes) <$> fs w !! p)
    ∧ repo w' = repo w.
Proof.
  revert w. induction changes as [|c changes IH]; intros w Hall.
  - exists w. split_and!; [done| |done]. intros p. cbn [appended_text foldr].
    destruct (fs w !! p) as [old|]; [|done]. cbn. by rewrite string_app_nil_r.
  - apply Forall_cons in Hall as [Hc Hall].
    pose proof Hc as (Hty & [content Hcontent] & p0 & Hp0 & [old0 Hold0]).
    destruct (IH (set_fs <[p0 := old0 +:+ content]> w)) as (w' & Hrun & Hfs & Hrepo).
    { cbn [fs set_fs]. eapply Forall_impl; [done|].
      intros c'. by apply (appendable_insert _ _ old0). }
    exists w'. split_and!.
    + cbn [for_each]. rewrite run_bind.
      by rewrite (apply_changes_append _ _ _ _ _ _ Hty Hp0 Hold0 Hcontent).
    + intros p. rewrite Hfs. cbn [fs set_fs appended_text foldr].
      fold (appended_text p changes). rewrite Hp0, Hcontent. cbn [default].
      destruct (decide (p0 = p)) as [->|Hne].
      * rewrite bool_decide_true by done. rewrite lookup_insert_eq, Hold0. cbn.
        by rewrite string_app_assoc.
      * rewrite bool_decide_false by congruence. by rewrite lookup_insert_ne.
    + by rewrite Hrepo.
Qed.

Lemma appends_accumulate_in_order_witness :
  ∃ w',
    for_each (apply_changes re_sub_fragment)
      [change_hello;
       dict [("change_type", "append"); ("target_file", "two.txt"); ("content", "!")];
       change_hello] sample_world
    = (inr tt, w')
    ∧ (∀ p, fs w' !! p
            = (λ old, old +:+ appended_text p
                 [change_hello;
                  dict [("change_type", "append"); ("target_file", "two.txt");
                        ("content", "!")];
                  change_hello]) <$> fs sample_world !! p)
    ∧ repo w' = repo sample_world.
Proof.
  apply (appends_accumulate_in_order re_sub_fragment
           [change_hello;
            dict [("change_type", "append"); ("target_file", "two.txt");
                  ("content", "!")];
            change_hello] sample_world).
  constructor; [|constructor; [|constructor; [|constructor]]].
  all: unfold appendable; split_and!; [reflexivity|by eexists|].
  all: eexists; split; [reflexivity|by eexists].
Defined.

Lemma apply_changes_success re_sub c w v w' :
  apply_changes re_sub c w = (inr v, w') →
  v = PyNone ∧ applicable_shape (fs w) c.
Proof.
  unfold apply_changes. rewrite run_bind, run_getitem.
  destruct (c !! "change_type") as [ty|] eqn:Hty; [|done].
  rewrite run_bind, run_getitem.
  destruct (c !! "target_file") as [p|] eqn:Hp; [|done].
  rewrite run_bind. destruct (fs w !! p) as [old|] eqn:Hold.
  2:{ by rewrite (run_path_exists_None _ _ Hold). }
  rewrite (run_path_exists_Some _ _ _ Hold). cbn [negb].
  assert (∃ q, c !! "target_file" = Some q ∧ is_Some (fs w !! q)) as Hfile by eauto.
  case_bool_decide as Ha.
  - subst ty. rewrite run_bind. unfold open_append at 1. rewrite Hold.
    rewrite run_bind, run_getitem.
    destruct (c !! "content") as [content|]; [|done].
    rewrite run_bind. unfold write_append.
    intros [= <- _]. split; [done|]. split; [by left|done].
  - case_bool_decide as Hr; [|done]. subst ty.
    rewrite run_bind. unfold read_file at 1. rewrite Hold.
    rewrite run_bind, run_getitem.
    destruct (c !! "search_pattern") as [pat|]; [|done].
    rewrite run_bind, run_getitem.
    destruct (c !! "replacement") as [repl|]; [|done].
    rewrite run_bind.
    destruct (re_sub pat repl _) as [e|updated]; cbn [lift]; [done|].
    rewrite run_ret. case_bool_decide; [done|].
    rewrite run_bind. unfold write_file.
    intros [= <- _]. split; [done|]. split; [by right|done].
Qed.

Lemma apply_phase_dom re_sub changes w r w' :
  for_each (apply_changes re_sub) changes w = (r, w') → dom (fs w') = dom (fs w).
Proof.
  revert w. induction changes as [|c changes IH]; intros w.
  - by intros [= _ <-].
  - cbn [for_each]. rewrite run_bind.
    destruct (apply_changes re_sub c w) as [[e|v] w1] eqn:Hc.
    + intros [= _ <-]. by eapply apply_changes_dom.
    + intros Hrest%IH. rewrite Hrest. by eapply apply_changes_dom.
Qed.

Lemma applicable_shape_dom files files' c :
  dom files' = dom files → applicable_shape files c → applicable_shape files' c.
Proof.
  intros Hdom (Hty & p & Hp & Hfile). split; [done|]. exists p. split; [done|].
  by rewrite <- elem_of_dom, Hdom, elem_of_dom.
Qed.

Lemma apply_phase_success re_sub changes w w' :
  for_each (apply_changes re_sub) changes w = (inr tt, w') →
  Forall (applicable_shape (fs w)) changes.
Proof.
  revert w. induction changes as [|c changes IH]; intros w; [by constructor|].
  cbn [for_each]. rewrite run_bind.
  destruct (apply_changes re_sub c w) as [[e|v] w1] eqn:Hc; [done|].
  intros Hrest. pose proof (apply_changes_success _ _ _ _ _ Hc) as [_ Hshape].
  constructor; [done|]. apply IH in Hrest.
  eapply Forall_impl; [done|]. intros c'. apply applicable_shape_dom.
  symmetry. by eapply apply_changes_dom.
Qed.

(** [X12] When the apply phase gets through a list of changes, every
    change of the list has the type "append" or "replace" and a target
    file that was there at the start and is there at the end: the phase
    neither creates nor deletes a file, and leaves the repository
    alone. *)
Theorem applied_changes_are_well_formed re_sub changes w w' :
  for_each (apply_changes re_sub) changes w = (inr tt, w') →
  Forall (applicable_shape (fs w)) changes
  ∧ Forall (applicable_shape (fs w')) changes
  ∧ dom (fs w') = dom (fs w)
  ∧ repo w' = repo w.
Proof.
  intros Hrun. pose proof (apply_phase_success _ _ _ _ Hrun) as Hshape.
  pose proof (apply_phase_dom _ _ _ _ _ Hrun) as Hdom.
  pose proof (apply_phase_frame _ _ _ _ _ Hrun) as [Hrepo _].
  split_and!; [done| |done..].
  eapply Forall_impl; [done|]. intros c. by apply applicable_shape_dom.
Qed.

Lemma applied_changes_are_well_formed_witness :
  Forall (applicable_shape (fs sample_world)) [change_hello; change_foo]
  ∧ Forall (applicable_shape (fs (set_fs <["two.txt" := "bar bar"]> sample_world_hello)))
      [change_hello; change_foo]
  ∧ dom (fs (set_fs <["two.txt" := "bar bar"]> sample_world_hello))
    = dom (fs sample_world)
  ∧ repo (set_fs <["two.txt" := "bar bar"]> sample_world_hello) = repo sample_world.
Proof.
  apply (applied_changes_are_well_formed re_sub_fragment [change_hello; change_foo]
           sample_world (set_fs <["two.txt" := "bar bar"]> sample_world_hello)).
  vm_compute. reflexivity.
Defined.

(** ** Further properties of the document step *)

Lemma write_bullets_prefix changes old w :
  fs w !! codebase_md_path = Some old →
  for_each (λ change,
     description ← getitem change "description";
     write_append codebase_md_path ("- " +:+ description +:+ nl)) changes w
  = (if all_have "description" changes then inr tt else inl (KeyError "description"),
     set_fs <[codebase_md_path := old +:+ bullet_lines (described_prefix changes)]> w).
Proof.
  revert old w. induction changes as [|c changes IH]; intros old w Hold.
  - cbn [for_each all_have described_prefix bullet_lines foldr].
    rewrite run_ret, string_app_nil_r.
    unfold set_fs. rewrite insert_id by done. by rewrite set_fs_id.
  - cbn [for_each all_have described_prefix]. rewrite run_bind, run_bind, run_getitem.
    destruct (c !! "description") as [d|].
    + unfold write_append at 1. rewrite Hold. cbn [default].
      erewrite IH; [|apply lookup_insert_eq].
      rewrite set_fs_insert_insert. cbn [bullet_lines foldr].
      by rewrite !string_app_assoc.
    + cbn [bullet_lines foldr]. rewrite string_app_nil_r.
      unfold set_fs. rewrite insert_id by done. by rewrite set_fs_id.
Qed.

Lemma update_codebase_md_outcome changes w :
  update_codebase_md changes w
  = (if all_have "description" changes
     then inr PyNone else inl (KeyError "description"),
     set_fs <[codebase_md_path :=
                default "" (fs w !! codebase_md_path)
                +:+ recent_changes_header
                +:+ bullet_lines (described_prefix changes)]> w).
Proof.
  unfold update_codebase_md.
  rewrite run_bind. unfold open_append at 1.
  rewrite run_bind. unfold write_append at 1. rewrite run_bind.
  destruct (fs w !! codebase_md_path) as [old|] eqn:Hold.
  - rewrite Hold. cbn [default].
    erewrite write_bullets_prefix; [|apply lookup_insert_eq].
    rewrite set_fs_insert_insert, string_app_assoc.
    by destruct (all_have "description" changes).
  - cbn [fs set_fs]. rewrite lookup_insert_eq. cbn [default].
    erewrite write_bullets_prefix; [|apply lookup_insert_eq].
    rewrite !set_fs_insert_insert, string_app_assoc.
    by destruct (all_have "description" changes).
Qed.

(** [X13] The document step on any list of changes: the changelog gets
    the header and the bullet lines of the changes in front of the first
    one without a "description"; if there is such a change the step then
    raises [KeyError("description")] with those lines already written,
    otherwise it returns [None].  In both cases the old contents of the
    changelog stay in front, and no other file and nothing of the
    repository changes. *)
Theorem update_codebase_md_writes_until_a_description_is_missing changes w :
  update_codebase_md changes w
  = (if all_have "description" changes
     then inr PyNone else inl (KeyError "description"),
     mkWorld
       (<[codebase_md_path :=
            default "" (fs w !! codebase_md_path)
            +:+ recent_changes_header
            +:+ bullet_lines (described_prefix changes)]> (fs w))
       (repo w)).
Proof. apply update_codebase_md_outcome. Qed.

Lemma string_app_cancel_nil (a b : string) : a +:+ b = a → b = "".
Proof.
  intros H. apply (String.app_inj a). by rewrite string_app_nil_r.
Qed.

(** [X14] The document step adds to the changelog each time it runs: run
    twice on the same changes, it leaves the section twice, one behind
    the other, so a second run never leaves the changelog as the first
    one did. *)
Theorem update_codebase_md_twice changes descriptions w :
  has_values "description" changes descriptions →
  ∃ w1 w2 old section,
    update_codebase_md changes w = (inr PyNone, w1)
    ∧ update_codebase_md changes w1 = (inr PyNone, w2)
    ∧ old = default "" (fs w !! codebase_md_path)
    ∧ section = recent_changes_header +:+ bullet_lines descriptions
    ∧ fs w1 !! codebase_md_path = Some (old +:+ section)
    ∧ fs w2 !! codebase_md_path = Some (old +:+ section +:+ section)
    ∧ fs w2 !! codebase_md_path ≠ fs w1 !! codebase_md_path.
Proof.
  intros Hd. eexists _, _, _, _.
  split; [by apply update_codebase_md_writes|].
  split; [by apply update_codebase_md_writes|].
  split; [done|]. split; [done|].
  cbn [fs set_fs]. rewrite !lookup_insert_eq. cbn [default].
  unfold id. split_and!; [done|by rewrite !string_app_assoc|].
  intros [= Heq]. apply string_app_cancel_nil in Heq. discriminate Heq.
Qed.

Lemma update_codebase_md_twice_witness :
  ∃ w1 w2 old section,
    update_codebase_md [change_hello; change_foo] sample_world = (inr PyNone, w1)
    ∧ update_codebase_md [change_hello; change_foo] w1 = (inr PyNone, w2)
    ∧ old = default "" (fs sample_world !! codebase_md_path)
    ∧ section = recent_changes_header
                +:+ bullet_lines ["Say hello"; "Rename foo to bar"]
    ∧ fs w1 !! codebase_md_path = Some (old +:+ section)
    ∧ fs w2 !! codebase_md_path = Some (old +:+ section +:+ section)
    ∧ fs w2 !! codebase_md_path ≠ fs w1 !! codebase_md_path.
Proof.
  apply (update_codebase_md_twice [change_hello; change_foo]
           ["Say hello"; "Rename foo to bar"] sample_world).
  repeat constructor.
Defined.

(** ** Further properties of the commit step *)

Lemma comprehension_outcome key dicts w :
  comprehension (λ d, getitem d key) dicts w
  = (if all_have key dicts then inr (values_of key dicts) else inl (KeyError key), w).
Proof.
  induction dicts as [|d dicts IH]; [done|].
  cbn [comprehension all_have]. rewrite run_bind, run_getitem.
  unfold values_of. cbn [omap list_omap]. fold (values_of key dicts).
  destruct (d !! key) as [v|]; [|done].
  rewrite run_bind, IH. by destruct (all_have key dicts).
Qed.

Lemma all_have_values key dicts values :
  has_values key dicts values → all_have key dicts = true ∧ values_of key dicts = values.
Proof.
  intros H. induction H as [|d v dicts values Hd _ [IH1 IH2]]; [done|].
  unfold values_of. cbn [all_have omap list_omap]. rewrite Hd.
  split; [done|]. cbn. by rewrite <- IH2.
Qed.

Lemma all_have_has_values key dicts :
  all_have key dicts = true → has_values key dicts (values_of key dicts).
Proof.
  induction dicts as [|d dicts IH]; [constructor|].
  unfold values_of. cbn [all_have omap list_omap].
  destruct (d !! key) as [v|] eqn:Hd; [|done].
  intros H. constructor; [done|]. by apply IH.
Qed.

(** The commit step, case by case. *)
Lemma commit_changes_outcome changes w :
  commit_changes changes w =
  match repo w with
  | None => (inl InvalidGitRepositoryError, w)
  | Some r =>
      if all_have "target_file" changes then
        match read_paths (fs w) (codebase_md_path :: values_of "target_file" changes) with
        | inl p => (inl (FileNotFoundError p), w)
        | inr entries =>
            if all_have "description" changes then
              (inr PyNone,
               mkWorld (fs w)
                 (Some (mkRepo (stage (index r) entries)
                    (commits r ++
                       [mkCommit
                          (commit_preamble +:+ nl
                           +:+ String.concat nl (values_of "description" changes))
                          (stage (index r) entries)]))))
            else
              (inl (KeyError "description"),
               mkWorld (fs w) (Some (mkRepo (stage (index r) entries) (commits r))))
        end
      else (inl (KeyError "target_file"), w)
  end.
Proof.
  unfold commit_changes. rewrite run_bind. unfold git_Repo at 1.
  destruct (repo w) as [r|] eqn:Hr; [|done].
  rewrite run_bind, comprehension_outcome.
  destruct (all_have "target_file" changes); [|done].
  rewrite run_bind. unfold index_add at 1. rewrite Hr.
  destruct (read_paths _ _) as [p|entries]; [done|].
  rewrite run_bind, comprehension_outcome.
  by destruct (all_have "description" changes).
Qed.

(** [X15] Without a repository at the current directory the commit step
    raises at once, before it reads a single change: also a list of
    changes without target files or descriptions gives
    [InvalidGitRepositoryError], and the world is as before. *)
Theorem commit_changes_without_repository changes w :
  repo w = None →
  commit_changes changes w = (inl InvalidGitRepositoryError, w).
Proof. intros Hr. by rewrite commit_changes_outcome, Hr. Qed.

Lemma commit_changes_without_repository_witness :
  commit_changes [∅; change_hello] (world_with_text "aab")
  = (inl InvalidGitRepositoryError, world_with_text "aab").
Proof.
  apply (commit_changes_without_repository [∅; change_hello] (world_with_text "aab")).
  reflexivity.
Defined.

(** [X16] However the commit step ends, it writes to no file of the
    working tree, creates no repository where there is none, and keeps
    the history: the commits that were there stay, in order, and at most
    one is added behind them. *)
Theorem commit_changes_keeps_files_and_history changes w :
  fs (commit_changes changes w).2 = fs w
  ∧ (repo w = None → repo (commit_changes changes w).2 = None)
  ∧ ∀ r, repo w = Some r →
      ∃ r', repo (commit_changes changes w).2 = Some r'
            ∧ (commits r' = commits r ∨ ∃ c, commits r' = commits r ++ [c]).
Proof.
  rewrite commit_changes_outcome.
  destruct (repo w) as [r|] eqn:Hr.
  - destruct (all_have "target_file" changes);
      [destruct (read_paths _ _) as [p|entries];
       [|destruct (all_have "description" changes)]|].
    all: cbn [snd fs repo]; split_and!; [done|done|].
    all: intros r0 [= <-]; eexists; split; [by try rewrite Hr|]; cbn [commits]; eauto.
  - cbn [snd]. split_and!; [done..|]. by rewrite Hr.
Qed.

(** [X17] The commit step stages before it reads the descriptions: in a
    repository, with every target file named and present, a change
    without a "description" makes the step raise
    [KeyError("description")] after the changelog and the target files
    have been staged, and no commit is created. *)
Theorem commit_changes_stages_before_descriptions changes targets w r :
  repo w = Some r →
  has_values "target_file" changes targets →
  (∀ p, p ∈ codebase_md_path :: targets → is_Some (fs w !! p)) →
  all_have "description" changes = false →
  commit_changes changes w
  = (inl (KeyError "description"),
     mkWorld (fs w)
       (Some (mkRepo
          (stage (index r)
             (working_tree_entries (fs w) (codebase_md_path :: targets)))
          (commits r)))).
Proof.
  intros Hr [Ht <-]%all_have_values Hall Hd.
  rewrite commit_changes_outcome, Hr, Ht, (read_paths_present _ _ Hall).
  by rewrite Hd.
Qed.

Lemma commit_changes_stages_before_descriptions_witness :
  commit_changes [change_hello; dict [("target_file", "two.txt")]]
    sample_world_documented
  = (inl (KeyError "description"),
     mkWorld (fs sample_world_documented)
       (Some (mkRepo
          (stage (index empty_repo)
             (working_tree_entries (fs sample_world_documented)
                (codebase_md_path :: ["one.txt"; "two.txt"])))
          (commits empty_repo)))).
Proof.
  apply (commit_changes_stages_before_descriptions
           [change_hello; dict [("target_file", "two.txt")]]
           ["one.txt"; "two.txt"] sample_world_documented empty_repo).
  - reflexivity.
  - repeat constructor.
  - intros p Hp.
    repeat (apply elem_of_cons in Hp as [->|Hp]; [by eexists|]).
    by apply elem_of_nil in Hp.
  - reflexivity.
Defined.

(** [X18] In a repository, a change without a "target_file" key makes
    the commit step raise [KeyError("target_file")] while it builds the
    list of paths: nothing is staged and nothing committed. *)
Theorem commit_changes_without_target_file changes w :
  is_Some (repo w) →
  all_have "target_file" changes = false →
  commit_changes changes w = (inl (KeyError "target_file"), w).
Proof. intros [r Hr] Ht. by rewrite commit_changes_outcome, Hr, Ht. Qed.

Lemma commit_changes_without_target_file_witness :
  commit_changes [change_hello; dict [("description", "No target")]]
    sample_world_documented
  = (inl (KeyError "target_file"), sample_world_documented).
Proof.
  apply (commit_changes_without_target_file
           [change_hello; dict [("description", "No target")]]
           sample_world_documented).
  - by eexists.
  - reflexivity.
Defined.

(** ** Further properties of [execute] *)

Lemma described_prefix_all changes :
  all_have "description" changes = true →
  described_prefix changes = values_of "description" changes.
Proof.
  induction changes as [|c changes IH]; [done|].
  unfold values_of. cbn [all_have described_prefix omap list_omap].
  destruct (c !! "description"); [|done]. intros H. cbn. f_equal. by apply IH.
Qed.

Lemma applicable_targets files changes :
  Forall (applicable_shape files) changes →
  all_have "target_file" changes = true
  ∧ ∀ p, p ∈ values_of "target_file" changes → is_Some (files !! p).
Proof.
  intros H. induction H as [|c changes (_ & p & Hp & Hfile) _ [IH1 IH2]].
  - split; [done|]. intros p Hp. by apply elem_of_nil in Hp.
  - unfold values_of. cbn [all_have omap list_omap]. rewrite Hp.
    split; [done|]. cbn. intros q [->|Hq]%elem_of_cons; [done|]. by apply IH2.
Qed.

(** [execute] once the apply phase has gone through. *)
Lemma execute_after_apply re_sub changes w w1 :
  for_each (apply_changes re_sub) changes w = (inr tt, w1) →
  Refactorizor.execute (PythonJavaScriptRefactorizor.new re_sub changes) w =
  if all_have "description" changes then
    match repo w with
    | None =>
        (inl InvalidGitRepositoryError, mkWorld (with_changelog changes (fs w1)) None)
    | Some r =>
        (inr PyNone,
         mkWorld (with_changelog changes (fs w1))
           (Some (mkRepo
              (stage (index r)
                 (working_tree_entries (with_changelog changes (fs w1))
                    (codebase_md_path :: values_of "target_file" changes)))
              (commits r ++
                 [mkCommit
                    (commit_preamble +:+ nl
                     +:+ String.concat nl (values_of "description" changes))
                    (stage (index r)
                       (working_tree_entries (with_changelog changes (fs w1))
                          (codebase_md_path :: values_of "target_file" changes)))]))))
    end
  else (inl (KeyError "description"), mkWorld (with_changelog changes (fs w1)) (repo w)).
Proof.
  intros Hrun. rewrite execute_unfold, run_bind, Hrun.
  pose proof (apply_phase_frame _ _ _ _ _ Hrun) as [Hrepo _].
  pose proof (apply_phase_success _ _ _ _ Hrun) as Hshape.
  rewrite run_bind, update_codebase_md_outcome. unfold set_fs.
  fold (with_changelog changes (fs w1)). rewrite Hrepo.
  destruct (all_have "description" changes) eqn:Hd; [|done].
  rewrite run_bind, commit_changes_outcome. cbn [repo fs].
  destruct (repo w) as [r|]; [|done].
  destruct (applicable_targets (fs w1) changes) as [Ht Hfiles].
  { eapply Forall_impl; [done|]. intros c. apply applicable_shape_dom.
    by eapply apply_phase_dom. }
  rewrite Ht, read_paths_present; [by rewrite Hd|].
  intros p [->|Hp]%elem_of_cons.
  - unfold with_changelog. rewrite lookup_insert_eq. eauto.
  - apply Hfiles in Hp as [s Hs]. unfold with_changelog.
    destruct (decide (codebase_md_path = p)) as [<-|Hne].
    + rewrite lookup_insert_eq. eauto.
    + rewrite lookup_insert_ne by done. eauto.
Qed.

(** [X19] The whole of a successful run.  When every change applies,
    every change has a description and there is a repository, [execute]
    returns [None]; the files are as the apply phase left them, the
    changelog has its section behind its old contents, the changelog and
    every target file are staged with exactly these contents (staging
    cannot fail on a missing file once the apply phase got through), and
    one commit with this index as its tree is added. *)
Theorem execute_succeeds re_sub changes descriptions w w1 r :
  for_each (apply_changes re_sub) changes w = (inr tt, w1) →
  has_values "description" changes descriptions →
  repo w = Some r →
  ∃ targets files idx,
    has_values "target_file" changes targets
    ∧ files = <[codebase_md_path :=
                  default "" (fs w1 !! codebase_md_path)
                  +:+ recent_changes_header +:+ bullet_lines descriptions]> (fs w1)
    ∧ Refactorizor.execute (PythonJavaScriptRefactorizor.new re_sub changes) w
      = (inr PyNone,
         mkWorld files
           (Some (mkRepo idx
              (commits r ++
                 [mkCommit (commit_preamble +:+ nl +:+ String.concat nl descriptions)
                           idx]))))
    ∧ (∀ p, p ∈ codebase_md_path :: targets → idx !! p = files !! p)
    ∧ (∀ p, p ∉ codebase_md_path :: targets → idx !! p = index r !! p).
Proof.
  intros Hrun [Hd Hvalues]%all_have_values Hr.
  pose proof (apply_phase_success _ _ _ _ Hrun) as Hshape.
  destruct (applicable_targets (fs w) changes Hshape) as [Ht Hfiles].
  eexists (values_of "target_file" changes), (with_changelog changes (fs w1)), _.
  split; [by apply all_have_has_values|].
  split; [unfold with_changelog; by rewrite described_prefix_all, Hvalues|].
  split; [rewrite (execute_after_apply _ _ _ _ Hrun), Hd, Hr; by rewrite Hvalues|].
  split.
  - intros p Hp. rewrite stage_lookup, decide_True by done.
    destruct (with_changelog changes (fs w1) !! p) as [s|] eqn:Hs; [done|].
    exfalso. apply elem_of_cons in Hp as [->|Hp].
    + unfold with_changelog in Hs. by rewrite lookup_insert_eq in Hs.
    + apply Hfiles in Hp. rewrite <- elem_of_dom in Hp.
      rewrite <- (apply_phase_dom _ _ _ _ _ Hrun) in Hp.
      apply not_elem_of_dom in Hs. apply Hs. unfold with_changelog.
      rewrite dom_insert_L. apply elem_of_union. by right.
  - intros p Hp. by rewrite stage_lookup, decide_False.
Qed.

Lemma execute_succeeds_witness :
  ∃ targets files idx,
    has_values "target_file" [change_hello; change_foo] targets
    ∧ files = <[codebase_md_path :=
                  default ""
                    (fs (set_fs <["two.txt" := "bar bar"]> sample_world_hello)
                       !! codebase_md_path)
                  +:+ recent_changes_header
                  +:+ bullet_lines ["Say hello"; "Rename foo to bar"]]>
                (fs (set_fs <["two.txt" := "bar bar"]> sample_world_hello))
    ∧ Refactorizor.execute
        (PythonJavaScriptRefactorizor.new re_sub_fragment [change_hello; change_foo])
        sample_world
      = (inr PyNone,
         mkWorld files
           (Some (mkRepo idx
              (commits empty_repo ++
                 [mkCommit
                    (commit_preamble +:+ nl
                     +:+ String.concat nl ["Say hello"; "Rename foo to bar"])
                    idx]))))
    ∧ (∀ p, p ∈ codebase_md_path :: targets → idx !! p = files !! p)
    ∧ (∀ p, p ∉ codebase_md_path :: targets → idx !! p = index empty_repo !! p).
Proof.
  apply (execute_succeeds re_sub_fragment [change_hello; change_foo]
           ["Say hello"; "Rename foo to bar"] sample_world
           (set_fs <["two.txt" := "bar bar"]> sample_world_hello) empty_repo).
  - vm_compute. reflexivity.
  - repeat constructor.
  - reflexivity.
Defined.

(** [X20] What a return of [execute] certifies: the apply phase got
    through every change, every change has a "description", the current
    directory holds a repository, and the working tree is the one the
    apply phase left, with the changelog section appended. *)
Theorem execute_returns_only_if re_sub changes w v w' :
  Refactorizor.execute (PythonJavaScriptRefactorizor.new re_sub changes) w
  = (inr v, w') →
  ∃ w1,
    for_each (apply_changes re_sub) changes w = (inr tt, w1)
    ∧ all_have "description" changes = true
    ∧ is_Some (repo w)
    ∧ fs w' = with_changelog changes (fs w1).
Proof.
  intros Hexec.
  destruct (for_each (apply_changes re_sub) changes w) as [[e|[]] w1] eqn:Hrun.
  { rewrite execute_unfold, run_bind, Hrun in Hexec. done. }
  rewrite (execute_after_apply _ _ _ _ Hrun) in Hexec.
  destruct (all_have "description" changes); [|done].
  destruct (repo w); [|done]. injection Hexec as _ <-. eauto.
Qed.

Lemma execute_returns_only_if_witness :
  ∃ w1,
    for_each (apply_changes re_sub_fragment) [change_hello; change_foo] sample_world
    = (inr tt, w1)
    ∧ all_have "description" [change_hello; change_foo] = true
    ∧ is_Some (repo sample_world)
    ∧ fs sample_world_committed = with_changelog [change_hello; change_foo] (fs w1).
Proof.
  apply (execute_returns_only_if re_sub_fragment [change_hello; change_foo]
           sample_world PyNone sample_world_committed).
  vm_compute. reflexivity.
Defined.

(** [X21] Outside a repository nothing is undone: when every change
    applies and has a description but the current directory holds no
    repository, [execute] raises [InvalidGitRepositoryError] only after
    the files have been changed and the changelog written. *)
Theorem execute_without_repository re_sub changes descriptions w w1 :
  for_each (apply_changes re_sub) changes w = (inr tt, w1) →
  has_values "description" changes descriptions →
  repo w = None →
  Refactorizor.execute (PythonJavaScriptRefactorizor.new re_sub changes) w
  = (inl InvalidGitRepositoryError,
     mkWorld
       (<[codebase_md_path :=
            default "" (fs w1 !! codebase_md_path)
            +:+ recent_changes_header +:+ bullet_lines descriptions]> (fs w1))
       None).
Proof.
  intros Hrun [Hd Hvalues]%all_have_values Hr.
  rewrite (execute_after_apply _ _ _ _ Hrun), Hd, Hr.
  unfold with_changelog. by rewrite described_prefix_all, Hvalues.
Qed.

Lemma execute_without_repository_witness :
  Refactorizor.execute (PythonJavaScriptRefactorizor.new re_sub_fragment [change_ab])
    (world_with_text "aab")
  = (inl InvalidGitRepositoryError,
     mkWorld
       (<[codebase_md_path :=
            default "" (fs (world_with_text "ab") !! codebase_md_path)
            +:+ recent_changes_header +:+ bullet_lines ["Drop the a before b"]]>
          (fs (world_with_text "ab")))
       None).
Proof.
  apply (execute_without_repository re_sub_fragment [change_ab]
           ["Drop the a before b"] (world_with_text "aab") (world_with_text "ab")).
  - vm_compute. reflexivity.
  - repeat constructor.
  - reflexivity.
Defined.

(** [X22] Descriptions are read only after the files have been changed:
    when every change applies but one has no "description", [execute]
    raises [KeyError("description")] with all the changes on disk and
    the changelog holding the header and the bullet lines of the changes
    in front of that one; nothing is staged and nothing committed. *)
Theorem execute_with_a_missing_description re_sub changes w w1 :
  for_each (apply_changes re_sub) changes w = (inr tt, w1) →
  all_have "description" changes = false →
  Refactorizor.execute (PythonJavaScriptRefactorizor.new re_sub changes) w
  = (inl (KeyError "description"),
     mkWorld
       (<[codebase_md_path :=
            default "" (fs w1 !! codebase_md_path)
            +:+ recent_changes_header
            +:+ bullet_lines (described_prefix changes)]> (fs w1))
       (repo w)).
Proof. intros Hrun Hd. by rewrite (execute_after_apply _ _ _ _ Hrun), Hd. Qed.

Lemma execute_with_a_missing_description_witness :
  Refactorizor.execute
    (PythonJavaScriptRefactorizor.new re_sub_fragment
       [change_hello;
        dict [("change_type", "append"); ("target_file", "two.txt"); ("content", "!")]])
    sample_world
  = (inl (KeyError "description"),
     mkWorld
       (<[codebase_md_path :=
            default ""
              (fs (set_fs <["two.txt" := "foo foo!"]> sample_world_hello)
                 !! codebase_md_path)
            +:+ recent_changes_header
            +:+ bullet_lines
                  (described_prefix
                     [change_hello;
                      dict [("change_type", "append"); ("target_file", "two.txt");
                            ("content", "!")]])]>
          (fs (set_fs <["two.txt" := "foo foo!"]> sample_world_hello)))
       (repo sample_world)).
Proof.
  apply (execute_with_a_missing_description re_sub_fragment
           [change_hello;
            dict [("change_type", "append"); ("target_file", "two.txt");
                  ("content", "!")]]
           sample_world (set_fs <["two.txt" := "foo foo!"]> sample_world_hello)).
  - vm_compute. reflexivity.
  - reflexivity.
Defined.

(** [X23] However [execute] ends, it deletes no file and creates none
    but the changelog, leaves every file that is neither the changelog
    nor the target of a change exactly as it was, creates no repository,
    and keeps the history: the commits that were there stay, in order,
    and at most one is added behind them. *)
Theorem execute_keeps_files_and_history re_sub changes w :
  dom (fs w)
    ⊆ dom (fs (Refactorizor.execute
                 (PythonJavaScriptRefactorizor.new re_sub changes) w).2)
  ∧ dom (fs (Refactorizor.execute
               (PythonJavaScriptRefactorizor.new re_sub changes) w).2)
    ⊆ dom (fs w) ∪ {[codebase_md_path]}
  ∧ (∀ path,
       path ≠ codebase_md_path →
       (∀ c, c ∈ changes → c !! "target_file" ≠ Some path) →
       fs (Refactorizor.execute
             (PythonJavaScriptRefactorizor.new re_sub changes) w).2 !! path
       = fs w !! path)
  ∧ (repo w = None →
     repo (Refactorizor.execute
             (PythonJavaScriptRefactorizor.new re_sub changes) w).2 = None)
  ∧ ∀ r, repo w = Some r →
      ∃ r', repo (Refactorizor.execute
                    (PythonJavaScriptRefactorizor.new re_sub changes) w).2 = Some r'
            ∧ (commits r' = commits r ∨ ∃ c, commits r' = commits r ++ [c]).
Proof.
  destruct (for_each (apply_changes re_sub) changes w) as [[e|[]] w1] eqn:Hrun.
  - rewrite execute_unfold, run_bind, Hrun. cbn [snd].
    pose proof (apply_phase_dom _ _ _ _ _ Hrun) as Hdom.
    pose proof (apply_phase_frame _ _ _ _ _ Hrun) as [Hrepo Hfs].
    rewrite Hdom, Hrepo. split_and!; [done|apply union_subseteq_l|auto|done|eauto].
  - pose proof (apply_phase_dom _ _ _ _ _ Hrun) as Hdom.
    pose proof (apply_phase_frame _ _ _ _ _ Hrun) as [Hrepo Hfs].
    assert (dom (with_changelog changes (fs w1)) = dom (fs w) ∪ {[codebase_md_path]})
      as Hdom'.
    { unfold with_changelog. rewrite dom_insert_L, Hdom. apply (comm_L (∪)). }
    assert (∀ path, path ≠ codebase_md_path →
              (∀ c, c ∈ changes → c !! "target_file" ≠ Some path) →
              with_changelog changes (fs w1) !! path = fs w !! path) as Hframe.
    { intros path Hne Hpath. unfold with_changelog.
      rewrite lookup_insert_ne by done. by apply Hfs. }
    rewrite (execute_after_apply _ _ _ _ Hrun).
    destruct (all_have "description" changes); [destruct (repo w) as [r|] eqn:Hr|].
    all: cbn [snd fs repo]; rewrite Hdom'.
    all: split_and!; [apply union_subseteq_l|done|done|try done|].
    + intros r0 [= <-]. eexists. split; [done|]. cbn [commits]. eauto.
    + done.
    + intros r Hr. exists r. split; [done|]. by left.
Qed.

(** [X24] The base class alone, for any subclass whatever its three
    steps do: when the changes in front of a change have been applied
    and that change makes [apply_changes] raise, [execute] ends with that
    exception in the world the failing call left; neither a later
    change nor the document and commit steps run. *)
Theorem any_refactorizor_stops_at_a_failing_change
    (self : Refactorizor.t) pre c post w w1 e w2 :
  Refactorizor.changes self = pre ++ c :: post →
  for_each (Refactorizor.apply_changes self) pre w = (inr tt, w1) →
  Refactorizor.apply_changes self c w1 = (inl e, w2) →
  Refactorizor.execute self w = (inl e, w2).
Proof.
  intros Hchanges Hpre Hc. unfold Refactorizor.execute.
  by rewrite run_bind, Hchanges, (for_each_stops _ _ _ post _ _ _ _ Hpre Hc).
Qed.

(** A subclass whose first change is recorded in the repository and
    whose second change fails after it has written a file. *)
Lemma any_refactorizor_stops_at_a_failing_change_witness :
  Refactorizor.execute
    (Refactorizor.mk [change_hello; change_foo; change_baz]
       (λ c, if bool_decide (c = change_hello)
             then index_commit "applied";; mret PyNone
             else write_file "log.txt" "failed";; raise ReError)
       (write_file "doc.txt" "documented";; mret PyNone)
       (index_commit "done";; mret PyNone))
    sample_world
  = (inl ReError,
     mkWorld (<["log.txt" := "failed"]> (fs sample_world))
             (Some (mkRepo ∅ [mkCommit "applied" ∅]))).
Proof.
  apply (any_refactorizor_stops_at_a_failing_change
           (Refactorizor.mk [change_hello; change_foo; change_baz]
              (λ c, if bool_decide (c = change_hello)
                    then index_commit "applied";; mret PyNone
                    else write_file "log.txt" "failed";; raise ReError)
              (write_file "doc.txt" "documented";; mret PyNone)
              (index_commit "done";; mret PyNone))
           [change_hello] change_foo [change_baz] sample_world
           (mkWorld (fs sample_world) (Some (mkRepo ∅ [mkCommit "applied" ∅])))).
  - reflexivity.
  - vm_compute. reflexivity.
  - vm_compute. reflexivity.
Defined.

(** ** Replacing twice *)

Module ReSeal.
Import Re ReFacts.

Lemma matches_literals t m : matches (Literal <$> t) m → m = t.
Proof.
  revert m. induction t as [|c t IH]; intros m H.
  - by inversion H.
  - inversion H as [|a c' p' m' Hac Hrest]; subst. cbn in Hac.
    apply bool_decide_eq_true in Hac as <-. f_equal. by apply IH.
Qed.

Lemma subx_identity fuel t count n adv s :
  subx fuel (Literal <$> t) t count n adv s = s.
Proof.
  revert n adv s. induction fuel as [|fuel IH]; intros n adv s; [done|].
  cbn [subx]. destruct (negb (count =? 0) && (count <=? n)); [done|].
  destruct (search _ adv s) as [[[pre m] rest]|] eqn:Hsearch; [|done].
  apply search_Some in Hsearch as [(-> & Hm & _) _].
  apply matches_literals in Hm as ->. by rewrite IH.
Qed.

(** A text found in [g ++ t ++ r] that lies neither in [g] nor in [r]
    ends inside [t] or reaches over the end of [t]. *)
Lemma occurrence_over_end {A} (g t r pre m rest : list A) :
  t ≠ [] → m ≠ [] →
  g ++ t ++ r = pre ++ m ++ rest →
  (∃ post, g = pre ++ m ++ post)
  ∨ (∃ pre', r = pre' ++ m ++ rest)
  ∨ (∃ c, last m = Some c ∧ c ∈ t)
  ∨ (∃ c, last t = Some c ∧ c ∈ m).
Proof.
  intros Ht Hm Heq.
  destruct (decide (length pre + length m ≤ length g)) as [Hin|Hout].
  { left. exists (drop (length pre + length m) g).
    rewrite (assoc_L (++) pre m rest) in Heq. rewrite (assoc_L (++)).
    rewrite <- (take_drop (length pre + length m) g) at 1. f_equal.
    apply (f_equal (take (length pre + length m))) in Heq.
    rewrite take_app_le in Heq by done.
    rewrite (take_app_length' (pre ++ m)) in Heq; [done|]. by rewrite length_app. }
  destruct (decide (length g + length t ≤ length pre)) as [Hafter|Hov].
  { right. left. exists (drop (length g + length t) pre).
    apply (f_equal (drop (length g + length t))) in Heq.
    rewrite (assoc_L (++) g t r) in Heq. rewrite (drop_app_length' (g ++ t)) in Heq
      by (by rewrite length_app).
    rewrite Heq. by rewrite drop_app_le. }
  assert (0 < length t) by (destruct t; [done|cbn; lia]).
  assert (0 < length m) by (destruct m; [done|cbn; lia]).
  right. right.
  destruct (decide (length pre + length m ≤ length g + length t)) as [Hends|Hover].
  - left. set (k := length pre + length m - 1).
    assert (is_Some (m !! (k - length pre))) as [c Hc].
    { apply lookup_lt_is_Some. lia. }
    exists c. split.
    + rewrite last_lookup. rewrite <- Hc. f_equal. lia.
    + apply (f_equal (λ l, l !! k)) in Heq.
      rewrite lookup_app_r, lookup_app_l in Heq by lia.
      rewrite (lookup_app_r pre), lookup_app_l in Heq by lia.
      rewrite Hc in Heq. by eapply list_elem_of_lookup_2.
  - right. set (k := length g + length t - 1).
    assert (is_Some (t !! (k - length g))) as [c Hc].
    { apply lookup_lt_is_Some. lia. }
    exists c. split.
    + rewrite last_lookup. rewrite <- Hc. f_equal. lia.
    + apply (f_equal (λ l, l !! k)) in Heq.
      rewrite lookup_app_r, lookup_app_l in Heq by lia.
      rewrite (lookup_app_r pre), lookup_app_l in Heq by lia.
      rewrite Hc in Heq. symmetry in Heq. by eapply list_elem_of_lookup_2.
Qed.

Lemma matches_elem p m c :
  matches p m → c ∈ m → ∃ a, a ∈ p ∧ atom_matches a c = true.
Proof.
  intros Hm [i Hi]%list_elem_of_lookup_1.
  destruct (Forall2_lookup_r _ _ _ _ _ Hm Hi) as (a & Ha & Hac).
  exists a. split; [by eapply list_elem_of_lookup_2|done].
Qed.

Lemma matches_last p m c :
  matches p m → last m = Some c → ∃ a, last p = Some a ∧ atom_matches a c = true.
Proof.
  intros Hm Hc. rewrite last_lookup in Hc.
  destruct (Forall2_lookup_r _ _ _ _ _ Hm Hc) as (a & Ha & Hac).
  exists a. split; [|done]. rewrite last_lookup.
  by rewrite <- (matches_length _ _ Hm).
Qed.

Lemma seals_spec p t :
  seals p t = true →
  ∃ a c, last p = Some a ∧ last t = Some c
         ∧ (∀ c', c' ∈ t → atom_matches a c' = false)
         ∧ (∀ a', a' ∈ p → atom_matches a' c = false).
Proof.
  unfold seals. destruct (last p) as [a|]; [|done]. destruct (last t) as [c|]; [|done].
  intros [Ht Hp]%andb_true_iff. exists a, c. split_and!; [done..| |].
  - intros c' Hc'. rewrite forallb_forall in Ht.
    apply list_elem_of_In, Ht in Hc'. by apply negb_true_iff.
  - intros a' Ha'. rewrite forallb_forall in Hp.
    apply list_elem_of_In, Hp in Ha'. by apply negb_true_iff.
Qed.

Lemma seals_free p t pieces :
  seals p t = true →
  Forall (free_of p) pieces → free_of p (intercalate t pieces).
Proof.
  intros (a & c & Hlastp & Hlastt & Hta & Hpc)%seals_spec Hfree.
  assert (p ≠ []) as Hp by (by intros ->).
  assert (t ≠ []) as Ht by (by intros ->).
  induction Hfree as [|g gs Hg Hgs IH].
  - intros pre m rest (Hs & Hm & _). apply (matches_nonempty _ _ Hp) in Hm.
    destruct pre, m; done.
  - destruct gs as [|g' gs']; [done|].
    change (intercalate t (g :: g' :: gs')) with (g ++ t ++ intercalate t (g' :: gs')).
    intros pre m rest (Hs & Hm & _).
    pose proof (matches_nonempty _ _ Hp Hm) as Hne.
    destruct (occurrence_over_end _ _ _ _ _ _ Ht Hne Hs)
      as [[post ->]|[[pre' Hr]|[(c' & Hc' & Hin)|(c' & Hc' & Hin)]]].
    + apply (Hg pre m post). by split_and!; [..|intros (? & _)].
    + apply (IH pre' m rest). by split_and!; [..|intros (? & _)].
    + destruct (matches_last _ _ _ Hm Hc') as (a' & Ha' & Hac).
      rewrite Hlastp in Ha'. injection Ha' as <-. by rewrite (Hta c') in Hac.
    + rewrite Hlastt in Hc'. injection Hc' as <-.
      destruct (matches_elem _ _ _ Hm Hin) as (a' & Ha' & Hac).
      by rewrite (Hpc a') in Hac.
Qed.

Lemma sub_seals pattern repl text out p t :
  compile pattern = Some p →
  compile_template repl = Some t →
  seals p t = true →
  sub pattern repl text 0 = Some out →
  search p false (list_ascii_of_string out) = None.
Proof.
  intros Hp Ht Hseals Hsub.
  destruct (sub_SubstAll pattern repl text p t Hp Ht) as (out' & Hsub' & Hall).
  rewrite Hsub in Hsub'. injection Hsub' as <-.
  apply free_search_None.
  assert (p ≠ []) as Hpne.
  { intros ->. by apply seals_spec in Hseals as (? & ? & ? & _). }
  destruct (SubstAll_pieces _ _ _ _ _ Hpne Hall) as (pieces & _ & -> & Hfree).
  by apply seals_free.
Qed.

End ReSeal.

(** What a replace change of the fragment that went through has done. *)
Lemma replace_applied re_sub c w v w' p pat repl P T :
  agrees_with_fragment re_sub →
  c !! "change_type" = Some "replace" →
  c !! "target_file" = Some p →
  c !! "search_pattern" = Some pat →
  c !! "replacement" = Some repl →
  Re.compile pat = Some P →
  Re.compile_template repl = Some T →
  apply_changes re_sub c w = (inr v, w') →
  ∃ content out,
    fs w !! p = Some content
    ∧ Re.sub pat repl (universal_newlines content) 0 = Some out
    ∧ w' = set_fs <[p := out]> w.
Proof.
  intros Hag Hty Hp Hpat Hrepl HP HT Happly.
  pose proof (apply_changes_success _ _ _ _ _ Happly) as (_ & _ & q & Hq & [content Hold]).
  rewrite Hp in Hq. injection Hq as <-.
  destruct (ReFacts.sub_SubstAll pat repl (universal_newlines content) P T HP HT)
    as (out & Hsub & _).
  rewrite (apply_changes_replace _ _ _ _ _ _ _ Hty Hp Hold Hpat Hrepl) in Happly.
  rewrite (Hag _ _ _ _ Hsub) in Happly.
  case_bool_decide; [done|]. injection Happly as _ <-. eauto.
Qed.

Lemma replace_rejected_again re_sub c w p pat repl P T out :
  agrees_with_fragment re_sub →
  c !! "change_type" = Some "replace" →
  c !! "target_file" = Some p →
  c !! "search_pattern" = Some pat →
  c !! "replacement" = Some repl →
  Re.compile pat = Some P →
  Re.compile_template repl = Some T →
  fs w !! p = Some out →
  Re.search P false (list_ascii_of_string (universal_newlines out)) = None →
  apply_changes re_sub c w = (inl (PatternNotMatched pat p), w).
Proof.
  intros Hag Hty Hp Hpat Hrepl HP HT Hold Hnone.
  rewrite (apply_changes_replace _ _ _ _ _ _ _ Hty Hp Hold Hpat Hrepl).
  rewrite (Hag _ _ _ _ (ReFacts.sub_no_match pat repl _ 0 P T HP HT Hnone)).
  by rewrite bool_decide_true.
Qed.

(** [X9] The check for "not found" compares texts, it does not count
    matches: a replace change whose pattern is made of literal
    characters and whose replacement is the very text the pattern
    matches is rejected with the message "Search pattern ... not found"
    on every file, also on one in which the pattern occurs. *)
Theorem replacing_a_text_by_itself_is_rejected re_sub c w p content pat repl t :
  agrees_with_fragment re_sub →
  c !! "change_type" = Some "replace" →
  c !! "target_file" = Some p →
  fs w !! p = Some content →
  c !! "search_pattern" = Some pat →
  c !! "replacement" = Some repl →
  Re.compile pat = Some (Re.Literal <$> t) →
  Re.compile_template repl = Some t →
  apply_changes re_sub c w
  = (inl (ValueError ("Search pattern '" +:+ pat +:+ "' not found in " +:+ p)), w).
Proof.
  intros Hag Hty Hp Hold Hpat Hrepl HP HT.
  rewrite (apply_changes_replace _ _ _ _ _ _ _ Hty Hp Hold Hpat Hrepl).
  rewrite (Hag pat repl (universal_newlines content) (universal_newlines content)).
  - by rewrite bool_decide_true.
  - rewrite (ReFacts.sub_unfold _ _ _ _ _ _ HP HT), ReSeal.subx_identity.
    by rewrite string_of_list_ascii_of_string.
Qed.

Lemma replacing_a_text_by_itself_is_rejected_witness :
  apply_changes re_sub_fragment
    (dict [("change_type", "replace"); ("target_file", "two.txt");
           ("search_pattern", "foo"); ("replacement", "foo")]) sample_world
  = (inl (ValueError ("Search pattern '" +:+ "foo" +:+ "' not found in " +:+ "two.txt")),
     sample_world).
Proof.
  apply (replacing_a_text_by_itself_is_rejected re_sub_fragment
           (dict [("change_type", "replace"); ("target_file", "two.txt");
                  ("search_pattern", "foo"); ("replacement", "foo")])
           sample_world "two.txt" "foo foo" "foo" "foo" (list_ascii_of_string "foo")).
  - apply re_sub_fragment_agrees.
  - reflexivity.
  - reflexivity.
  - reflexivity.
  - reflexivity.
  - reflexivity.
  - reflexivity.
  - reflexivity.
Defined.

(** [X25] A replace change of the fragment cannot be applied twice in a
    row when the replacement holds no carriage return, the last item of
    the pattern accepts no character of the replacement, and the last
    character of the replacement is accepted by no item of the pattern:
    once it has gone through, applying it again raises PatternNotMatched
    and writes nothing.  (A carriage return in the replacement is written
    as it is and read back as a newline, so that the second run sees
    another text than the first one wrote.) *)
Theorem sealed_replace_cannot_be_applied_twice
    re_sub c w v w' p pat repl P T :
  agrees_with_fragment re_sub →
  c !! "change_type" = Some "replace" →
  c !! "target_file" = Some p →
  c !! "search_pattern" = Some pat →
  c !! "replacement" = Some repl →
  Re.compile pat = Some P →
  Re.compile_template repl = Some T →
  Re.seals P T = true →
  no_cr T = true →
  apply_changes re_sub c w = (inr v, w') →
  apply_changes re_sub c w' = (inl (PatternNotMatched pat p), w').
Proof.
  intros Hag Hty Hp Hpat Hrepl HP HT Hseals Hcr Happly.
  destruct (replace_applied _ _ _ _ _ _ _ _ _ _ Hag Hty Hp Hpat Hrepl HP HT Happly)
    as (content & out & Hold & Hsub & ->).
  apply (replace_rejected_again re_sub c _ p pat repl P T out); [done..| |].
  - cbn [fs set_fs]. apply lookup_insert_eq.
  - rewrite universal_newlines_id.
    + by apply (ReSeal.sub_seals pat repl (universal_newlines content) out P T).
    + apply (ReFacts.sub_no_cr pat repl (universal_newlines content) 0 out T);
        [done..| |done].
      apply universal_newlines_no_cr.
Qed.

Lemma sealed_replace_cannot_be_applied_twice_witness :
  apply_changes re_sub_fragment change_foo
    (set_fs <["two.txt" := bar_lf_bar]> dos_world)
  = (inl (PatternNotMatched "foo" "two.txt"),
     set_fs <["two.txt" := bar_lf_bar]> dos_world).
Proof.
  apply (sealed_replace_cannot_be_applied_twice re_sub_fragment change_foo
           dos_world PyNone (set_fs <["two.txt" := bar_lf_bar]> dos_world)
           "two.txt" "foo" "bar"
           [Re.Literal "f"; Re.Literal "o"; Re.Literal "o"]%char
           (list_ascii_of_string "bar")).
  - apply re_sub_fragment_agrees.
  - reflexivity.
  - reflexivity.
  - reflexivity.
  - reflexivity.
  - reflexivity.
  - reflexivity.
  - reflexivity.
  - reflexivity.
  - vm_compute. reflexivity.
Defined.

(** ** The script *)

Lemma for_each_cons {A B} (f : A → M B) x l w :
  for_each f (x :: l) w =
  match f x w with
  | (inr _, w1) => for_each f l w1
  | (inl e, w1) => (inl e, w1)
  end.
Proof. reflexivity. Qed.

Lemma chat_routes_sealed :
  ∃ P T, Re.compile chat_routes_pattern = Some P
         ∧ Re.compile_template chat_routes_replacement = Some T
         ∧ Re.seals P T = true
         ∧ no_cr T = true.
Proof. eexists _, _. split_and!; vm_compute; reflexivity. Qed.

(** [X26] The script cannot be run twice.  After a run that succeeded,
    whatever the working tree was, the file [chat_routes.py] no longer
    holds the pattern of the first change (no other step writes to that
    file), so a second run raises PatternNotMatched at its first change
    and leaves every file and the repository as the first run left
    them. *)
Theorem script_cannot_run_twice re_sub w v w' :
  agrees_with_fragment re_sub →
  main re_sub w = (inr v, w') →
  main re_sub w' = (inl (PatternNotMatched chat_routes_pattern chat_routes_py), w').
Proof.
  intros Hag Hrun. unfold main in *.
  destruct chat_routes_sealed as (P & T & HP & HT & Hseals & Hcr).
  destruct (for_each (apply_changes re_sub) main_changes w) as [[e|[]] w1] eqn:Happly.
  { by rewrite execute_unfold, run_bind, Happly in Hrun. }
  assert (∃ out, fs w1 !! chat_routes_py = Some out
                 ∧ Re.search P false (list_ascii_of_string (universal_newlines out))
                   = None)
    as (out & Hout & Hnone).
  { unfold main_changes in Happly. rewrite for_each_cons in Happly.
    destruct (apply_changes re_sub main_change_1 w) as [[e|v1] wa] eqn:H1; [done|].
    destruct (replace_applied re_sub main_change_1 w v1 wa chat_routes_py
                chat_routes_pattern chat_routes_replacement P T)
      as (content & out & Hold & Hsub & ->); [done|reflexivity..|done|done|done|].
    exists out. split.
    - apply apply_phase_frame in Happly as [_ Hfs]. rewrite Hfs.
      + cbn [fs set_fs]. apply lookup_insert_eq.
      + intros c [->|[->|Hc%elem_of_nil]%elem_of_cons]%elem_of_cons;
          [by vm_compute..|done].
    - rewrite universal_newlines_id.
      + by apply (ReSeal.sub_seals chat_routes_pattern chat_routes_replacement
                    (universal_newlines content) out P T).
      + apply (ReFacts.sub_no_cr chat_routes_pattern chat_routes_replacement
                 (universal_newlines content) 0 out T); [done..| |done].
        apply universal_newlines_no_cr. }
  rewrite (execute_after_apply _ _ _ _ Happly) in Hrun.
  assert (all_have "description" main_changes = true) as Hd by (by vm_compute).
  rewrite Hd in Hrun.
  destruct (repo w) as [r|]; [|done]. injection Hrun as _ <-.
  change main_changes with ([] ++ main_change_1 :: [main_change_2; main_change_3]).
  eapply execute_stops; [reflexivity|].
  apply (replace_rejected_again re_sub main_change_1 _ chat_routes_py
           chat_routes_pattern chat_routes_replacement P T out);
    [done|reflexivity..|done|done| |done].
  cbn [fs]. unfold with_changelog. by rewrite lookup_insert_ne.
Qed.

Lemma script_cannot_run_twice_witness :
  main re_sub_fragment (main re_sub_fragment main_world).2
  = (inl (PatternNotMatched chat_routes_pattern chat_routes_py),
     (main re_sub_fragment main_world).2).
Proof.
  apply (script_cannot_run_twice re_sub_fragment main_world PyNone
           (main re_sub_fragment main_world).2).
  - apply re_sub_fragment_agrees.
  - vm_compute. reflexivity.
Defined.

(** ** When "not found" means not found *)

Module ReLength.
Import Re ReFacts.

Lemma subx_length_ge p t fuel count n adv s :
  length p ≤ length t → length s ≤ length (subx fuel p t count n adv s).
Proof.
  intros Hlen. revert n adv s. induction fuel as [|fuel IH]; intros n adv s; [done|].
  cbn [subx]. destruct (negb (count =? 0) && (count <=? n)); [done|].
  destruct (search p adv s) as [[[pre m] rest]|] eqn:Hsearch; [|done].
  apply search_Some in Hsearch as [(-> & Hm & _) _].
  apply matches_length in Hm. specialize (IH (S n) (bool_decide (m = [])) rest).
  rewrite !length_app. lia.
Qed.

Lemma subx_length_le p t fuel count n adv s :
  length t ≤ length p → length (subx fuel p t count n adv s) ≤ length s.
Proof.
  intros Hlen. revert n adv s. induction fuel as [|fuel IH]; intros n adv s; [done|].
  cbn [subx]. destruct (negb (count =? 0) && (count <=? n)); [done|].
  destruct (search p adv s) as [[[pre m] rest]|] eqn:Hsearch; [|done].
  apply search_Some in Hsearch as [(-> & Hm & _) _].
  apply matches_length in Hm. specialize (IH (S n) (bool_decide (m = [])) rest).
  rewrite !length_app. lia.
Qed.

(** A substitution that finds the pattern changes the text, unless the
    pattern matches the replacement itself. *)
Lemma subx_changes p t fuel n s :
  ¬ matches p t →
  search p false s ≠ None →
  subx (S fuel) p t 0 n false s ≠ s.
Proof.
  intros Hnot Hfound. cbn [subx Nat.eqb negb andb].
  destruct (search p false s) as [[[pre m] rest]|] eqn:Hsearch; [|done].
  apply search_Some in Hsearch as [(-> & Hm & _) _].
  intros Heq. apply app_inv_head in Heq.
  pose proof (matches_length _ _ Hm) as Hlen.
  set (out := subx fuel p t 0 (S n) (bool_decide (m = [])) rest) in *.
  destruct (decide (length t = length m)) as [Hsame|Hdiff].
  - apply app_inj_1 in Heq as [-> _]; done.
  - apply (f_equal length) in Heq. rewrite !length_app in Heq.
    destruct (decide (length t ≤ length p)).
    + pose proof (subx_length_le p t fuel 0 (S n) (bool_decide (m = [])) rest).
      fold out in H. lia.
    + pose proof (subx_length_ge p t fuel 0 (S n) (bool_decide (m = [])) rest).
      fold out in H. lia.
Qed.

Lemma sub_changes pattern repl text p t :
  compile pattern = Some p →
  compile_template repl = Some t →
  ¬ matches p t →
  search p false (list_ascii_of_string text) ≠ None →
  ∃ out, sub pattern repl text 0 = Some out ∧ out ≠ text.
Proof.
  intros Hp Ht Hnot Hfound. eexists. split; [by apply sub_unfold|].
  intros Heq. apply (f_equal list_ascii_of_string) in Heq.
  rewrite list_ascii_of_string_of_list_ascii in Heq.
  unfold subx_fuel in Heq. rewrite Nat.add_comm in Heq.
  by apply subx_changes in Heq.
Qed.

End ReLength.

(** [X27] For a replace change of the fragment whose pattern does not
    match its own replacement text, the "not found" error says what it
    means for the text read from the file (its contents with every line
    end turned into a newline): on an existing file the change raises
    PatternNotMatched exactly when the pattern occurs nowhere in that
    text, and otherwise it returns and the file holds a text different
    from it. *)
Theorem not_found_means_no_occurrence re_sub c w p content pat repl P T :
  agrees_with_fragment re_sub →
  c !! "change_type" = Some "replace" →
  c !! "target_file" = Some p →
  fs w !! p = Some content →
  c !! "search_pattern" = Some pat →
  c !! "replacement" = Some repl →
  Re.compile pat = Some P →
  Re.compile_template repl = Some T →
  ¬ Re.matches P T →
  match Re.search P false (list_ascii_of_string (universal_newlines content)) with
  | None => apply_changes re_sub c w = (inl (PatternNotMatched pat p), w)
  | Some _ =>
      ∃ updated,
        updated ≠ universal_newlines content
        ∧ apply_changes re_sub c w = (inr PyNone, set_fs <[p := updated]> w)
  end.
Proof.
  intros Hag Hty Hp Hold Hpat Hrepl HP HT Hnot.
  destruct (Re.search P false (list_ascii_of_string (universal_newlines content)))
    as [found|] eqn:Hsearch.
  - destruct (ReLength.sub_changes pat repl (universal_newlines content) P T HP HT Hnot)
      as (out & Hsub & Hne); [by rewrite Hsearch|].
    exists out. split; [done|].
    rewrite (apply_changes_replace _ _ _ _ _ _ _ Hty Hp Hold Hpat Hrepl).
    rewrite (Hag _ _ _ _ Hsub). by rewrite bool_decide_false.
  - by apply (replace_rejected_again re_sub c w p pat repl P T content).
Qed.

Lemma not_found_means_no_occurrence_witness :
  match Re.search [Re.Literal "f"; Re.Literal "o"; Re.Literal "o"]%char false
          (list_ascii_of_string (universal_newlines foo_crlf_foo)) with
  | None =>
      apply_changes re_sub_fragment change_foo dos_world
      = (inl (PatternNotMatched "foo" "two.txt"), dos_world)
  | Some _ =>
      ∃ updated,
        updated ≠ universal_newlines foo_crlf_foo
        ∧ apply_changes re_sub_fragment change_foo dos_world
          = (inr PyNone, set_fs <["two.txt" := updated]> dos_world)
  end.
Proof.
  apply (not_found_means_no_occurrence re_sub_fragment change_foo dos_world
           "two.txt" foo_crlf_foo "foo" "bar"
           [Re.Literal "f"; Re.Literal "o"; Re.Literal "o"]%char
           (list_ascii_of_string "bar")).
  - apply re_sub_fragment_agrees.
  - reflexivity.
  - reflexivity.
  - reflexivity.
  - reflexivity.
  - reflexivity.
  - reflexivity.
  - reflexivity.
  - intros H. inversion H as [|? ? ? ? Hfirst]. discriminate Hfirst.
Defined.

(** ** Changes and the rest of the working tree *)

Lemma apply_changes_elsewhere re_sub c w q x ρ r w' :
  c !! "target_file" ≠ Some q →
  apply_changes re_sub c w = (r, w') →
  apply_changes re_sub c (mkWorld (<[q := x]> (fs w)) ρ)
  = (r, mkWorld (<[q := x]> (fs w')) ρ).
Proof.
  intros Hq. unfold apply_changes. rewrite !run_bind, !run_getitem.
  destruct (c !! "change_type") as [ty|] eqn:Hty; [|by intros [= <- <-]].
  rewrite !run_bind, !run_getitem.
  destruct (c !! "target_file") as [p|] eqn:Hp; [|by intros [= <- <-]].
  assert (q ≠ p) as Hne by congruence.
  rewrite !run_bind. unfold path_exists. cbn [fs]. rewrite lookup_insert_ne by done.
  destruct (fs w !! p) as [old|] eqn:Hold.
  2:{ rewrite bool_decide_false by (by intros [? ?]). by intros [= <- <-]. }
  rewrite bool_decide_true by eauto. cbn [negb].
  case_bool_decide as Ha.
  - rewrite !run_bind. unfold open_append. cbn [fs].
    rewrite lookup_insert_ne by done. rewrite Hold.
    rewrite !run_bind, !run_getitem.
    destruct (c !! "content") as [content|]; [|by intros [= <- <-]].
    rewrite !run_bind. unfold write_append. cbn [fs set_fs repo].
    rewrite lookup_insert_ne by done. rewrite Hold.
    intros [= <- <-]. cbn [fs set_fs]. by rewrite insert_insert_ne.
  - case_bool_decide as Hr; [|by intros [= <- <-]].
    rewrite !run_bind. unfold read_file. cbn [fs].
    rewrite lookup_insert_ne by done. rewrite Hold.
    rewrite !run_bind, !run_getitem.
    destruct (c !! "search_pattern") as [pat|]; [|by intros [= <- <-]].
    rewrite !run_bind, !run_getitem.
    destruct (c !! "replacement") as [repl|]; [|by intros [= <- <-]].
    rewrite !run_bind.
    destruct (re_sub pat repl _) as [e|updated]; cbn [lift]; [by intros [= <- <-]|].
    rewrite !run_ret. case_bool_decide; [by intros [= <- <-]|].
    rewrite !run_bind. unfold write_file. cbn [fs set_fs repo].
    intros [= <- <-]. cbn [fs set_fs]. by rewrite insert_insert_ne.
Qed.

Lemma apply_phase_elsewhere re_sub changes w q x ρ r w' :
  (∀ c, c ∈ changes → c !! "target_file" ≠ Some q) →
  for_each (apply_changes re_sub) changes w = (r, w') →
  for_each (apply_changes re_sub) changes (mkWorld (<[q := x]> (fs w)) ρ)
  = (r, mkWorld (<[q := x]> (fs w')) ρ).
Proof.
  revert w. induction changes as [|c changes IH]; intros w Hq.
  - by intros [= <- <-].
  - rewrite !for_each_cons.
    destruct (apply_changes re_sub c w) as [res w1] eqn:Hc.
    rewrite (apply_changes_elsewhere _ _ _ _ x ρ _ _ (Hq c ltac:(left)) Hc).
    destruct res as [e|v]; [by intros [= <- <-]|].
    intros Hrest. apply (IH w1) in Hrest; [done|].
    intros c' Hc'. apply Hq. by right.
Qed.

(** [X28] Applying changes depends on nothing but their target files:
    with another file created or overwritten beforehand, and with any
    repository or none, the apply phase ends the same way and leaves the
    same contents in every file it does not find overwritten. *)
Theorem apply_phase_ignores_other_files re_sub changes w q x ρ :
  (∀ c, c ∈ changes → c !! "target_file" ≠ Some q) →
  for_each (apply_changes re_sub) changes (mkWorld (<[q := x]> (fs w)) ρ)
  = ((for_each (apply_changes re_sub) changes w).1,
     mkWorld (<[q := x]> (fs (for_each (apply_changes re_sub) changes w).2)) ρ).
Proof.
  intros Hq. destruct (for_each (apply_changes re_sub) changes w) as [r w'] eqn:Hrun.
  by apply apply_phase_elsewhere.
Qed.

Lemma apply_phase_ignores_other_files_witness :
  for_each (apply_changes re_sub_fragment) [change_hello; change_foo]
    (mkWorld (<["notes.txt" := "n"]> (fs sample_world)) None)
  = ((for_each (apply_changes re_sub_fragment) [change_hello; change_foo]
        sample_world).1,
     mkWorld
       (<["notes.txt" := "n"]>
          (fs (for_each (apply_changes re_sub_fragment) [change_hello; change_foo]
                 sample_world).2))
       None).
Proof.
  apply (apply_phase_ignores_other_files re_sub_fragment [change_hello; change_foo]
           sample_world "notes.txt" "n" None).
  intros c Hc.
  repeat (apply elem_of_cons in Hc as [->|Hc]; [by vm_compute|]).
  by apply elem_of_nil in Hc.
Defined.

Lemma bullet_lines_app d1 d2 :
  bullet_lines (d1 ++ d2) = bullet_lines d1 +:+ bullet_lines d2.
Proof.
  induction d1 as [|d d1 IH]; [done|].
  cbn [app bullet_lines foldr]. fold (bullet_lines (d1 ++ d2)). fold (bullet_lines d1).
  by rewrite IH, !string_app_assoc.
Qed.

Lemma with_changelog_described changes descriptions files :
  has_values "description" changes descriptions →
  with_changelog changes files
  = <[codebase_md_path :=
        default "" (files !! codebase_md_path)
        +:+ recent_changes_header +:+ bullet_lines descriptions]> files.
Proof.
  intros [Hd Hvalues]%all_have_values. unfold with_changelog.
  by rewrite described_prefix_all, Hvalues.
Qed.

(** [X29] One run or two.  Let the changes [l1] and then the changes
    [l2] apply, all with descriptions, in a repository, no change of
    [l2] targeting the changelog.  Then running [execute] on [l1] and
    afterwards on [l2], and running it once on [l1 ++ l2], all succeed
    and leave every file but the changelog the same; the two runs leave
    two sections in the changelog and two commits, the single run one
    section with all the bullet lines and one commit. *)
Theorem two_runs_or_one re_sub l1 l2 d1 d2 w w1 w2 r :
  for_each (apply_changes re_sub) l1 w = (inr tt, w1) →
  for_each (apply_changes re_sub) l2 w1 = (inr tt, w2) →
  has_values "description" l1 d1 →
  has_values "description" l2 d2 →
  repo w = Some r →
  (∀ c, c ∈ l2 → c !! "target_file" ≠ Some codebase_md_path) →
  ∃ wA wB wC old a b c,
    Refactorizor.execute (PythonJavaScriptRefactorizor.new re_sub l1) w
      = (inr PyNone, wA)
    ∧ Refactorizor.execute (PythonJavaScriptRefactorizor.new re_sub l2) wA
      = (inr PyNone, wB)
    ∧ Refactorizor.execute (PythonJavaScriptRefactorizor.new re_sub (l1 ++ l2)) w
      = (inr PyNone, wC)
    ∧ (∀ path, path ≠ codebase_md_path → fs wB !! path = fs wC !! path)
    ∧ old = default "" (fs w1 !! codebase_md_path)
    ∧ fs wC !! codebase_md_path
      = Some (old +:+ recent_changes_header +:+ bullet_lines d1 +:+ bullet_lines d2)
    ∧ fs wB !! codebase_md_path
      = Some (old +:+ recent_changes_header +:+ bullet_lines d1
              +:+ recent_changes_header +:+ bullet_lines d2)
    ∧ (commits <$> repo wB) = Some (commits r ++ [a; b])
    ∧ (commits <$> repo wC) = Some (commits r ++ [c]).
Proof.
  intros H1 H2 Hd1 Hd2 Hr Hcb.
  pose proof (all_have_values _ _ _ Hd1) as [Ha1 _].
  pose proof (all_have_values _ _ _ Hd2) as [Ha2 _].
  assert (has_values "description" (l1 ++ l2) (d1 ++ d2)) as Hd12
    by (by apply Forall2_app).
  pose proof (all_have_values _ _ _ Hd12) as [Ha12 _].
  assert (for_each (apply_changes re_sub) (l1 ++ l2) w = (inr tt, w2)) as H12.
  { by rewrite for_each_app, H1. }
  pose proof (apply_phase_frame _ _ _ _ _ H2) as [_ Hfs2].
  (* the first run *)
  pose proof (execute_after_apply _ _ _ _ H1) as HA. rewrite Ha1, Hr in HA.
  rewrite (with_changelog_described _ _ _ Hd1) in HA.
  match type of HA with _ = (_, mkWorld ?f (Some ?rp)) =>
    set (filesA := f) in *; set (rA := rp) in * end.
  (* the second run *)
  pose proof (apply_phase_elsewhere re_sub l2 w1 codebase_md_path
                (default "" (fs w1 !! codebase_md_path)
                 +:+ recent_changes_header +:+ bullet_lines d1)
                (Some rA) _ _ Hcb H2) as H2'.
  fold filesA in H2'.
  pose proof (execute_after_apply re_sub l2 (mkWorld filesA (Some rA)) _ H2') as HB.
  rewrite Ha2 in HB. cbn [repo fs] in HB.
  rewrite (with_changelog_described _ _ _ Hd2) in HB.
  (* the single run *)
  pose proof (execute_after_apply _ _ _ _ H12) as HC. rewrite Ha12, Hr in HC.
  rewrite (with_changelog_described _ _ _ Hd12) in HC.
  eexists _, _, _, _, _, _, _.
  split; [exact HA|]. split; [exact HB|]. split; [exact HC|].
  cbn [fs repo commits fmap option_fmap option_map].
  split_and!.
  - intros path Hne. by rewrite !lookup_insert_ne.
  - done.
  - rewrite lookup_insert_eq, Hfs2 by (intros ? ?; by apply Hcb).
    by rewrite bullet_lines_app.
  - rewrite !lookup_insert_eq. cbn [default]. unfold id. by rewrite !string_app_assoc.
  - subst rA. cbn [commits]. by rewrite <- (assoc_L (++)).
  - done.
Qed.

Lemma two_runs_or_one_witness :
  ∃ wA wB wC old a b c,
    Refactorizor.execute
        (PythonJavaScriptRefactorizor.new re_sub_fragment [change_hello]) sample_world
      = (inr PyNone, wA)
    ∧ Refactorizor.execute
        (PythonJavaScriptRefactorizor.new re_sub_fragment [change_foo]) wA
      = (inr PyNone, wB)
    ∧ Refactorizor.execute
        (PythonJavaScriptRefactorizor.new re_sub_fragment
           ([change_hello] ++ [change_foo])) sample_world
      = (inr PyNone, wC)
    ∧ (∀ path, path ≠ codebase_md_path → fs wB !! path = fs wC !! path)
    ∧ old = default "" (fs sample_world_hello !! codebase_md_path)
    ∧ fs wC !! codebase_md_path
      = Some (old +:+ recent_changes_header +:+ bullet_lines ["Say hello"]
              +:+ bullet_lines ["Rename foo to bar"])
    ∧ fs wB !! codebase_md_path
      = Some (old +:+ recent_changes_header +:+ bullet_lines ["Say hello"]
              +:+ recent_changes_header +:+ bullet_lines ["Rename foo to bar"])
    ∧ (commits <$> repo wB) = Some (commits empty_repo ++ [a; b])
    ∧ (commits <$> repo wC) = Some (commits empty_repo ++ [c]).
Proof.
  apply (two_runs_or_one re_sub_fragment [change_hello] [change_foo]
           ["Say hello"] ["Rename foo to bar"] sample_world sample_world_hello
           (set_fs <["two.txt" := "bar bar"]> sample_world_hello) empty_repo).
  - vm_compute. reflexivity.
  - vm_compute. reflexivity.
  - repeat constructor.
  - repeat constructor.
  - reflexivity.
  - intros c Hc.
    repeat (apply elem_of_cons in Hc as [->|Hc]; [by vm_compute|]).
    by apply elem_of_nil in Hc.
Defined.
